(** * Shallow embedding of the knewit quiz server session engine

    Source: [src/server/quiz_types.py] (the [QuizSession] dataclass and its
    methods) and the session-mutating parts of [src/server/app.py]
    (the [ws_endpoint] handlers, [broadcast], [ping_loop]).

    Python dicts are modelled as stdpp [gmap]s, Python [int]s as [Z],
    Python floats (timestamps, elapsed seconds, latency) as [Q].
    Methods that mutate [self] return the new session explicitly. *)

From stdpp Require Import base gmap strings list fin_maps.
From Stdlib Require Import ZArith QArith Qminmax Qround Sorted.

Open Scope Z_scope.

(** ** Data model (quiz_types.py) *)

Inductive QuizState := LOBBY | ACTIVE | FINISHED.

#[global] Instance QuizState_eq_dec : EqDecision QuizState.
Proof. solve_decision. Defined.

Record Question := mkQuestion {
  prompt : string;
  options : list string;
  correct_idx : Z;
  qid : string
}.

Record Quiz := mkQuiz {
  title : string;
  questions : list Question;
  quiz_id : string
}.

Record Player := mkPlayer {
  player_id : string;
  score : Z;
  answered_current : bool;
  round_scores : list Z;
  last_pong : option Q;
  latency_ms : option Q;
  last_seen : option Q;
  is_muted : bool;
  status : string
}.

(** [Player(player_id=...)] with the dataclass defaults. *)
Definition new_player (pid : string) : Player :=
  {| player_id := pid; score := 0; answered_current := false;
     round_scores := []; last_pong := None; latency_ms := None;
     last_seen := None; is_muted := false; status := "active" |}.

(** A WebSocket handle; only its identity matters to the session. *)
Definition WebSocket := nat.

Record QuizSession := mkSession {
  sid : string;
  host_id : string;
  state : QuizState;
  players : gmap string Player;
  quiz : option Quiz;
  password : option string;
  current_question_idx : Z;
  answer_counts : gmap Z Z;
  answer_log : gmap Z (gmap string Z);
  answer_time_log : gmap Z (gmap string Q);
  connections : gmap string WebSocket
}.

(** [{0: 0, 1: 0, 2: 0, 3: 0}] *)
Definition fresh_counts : gmap Z Z :=
  <[0:=0]> (<[1:=0]> (<[2:=0]> (<[3:=0]> ∅))).

(** [create_session]: the dataclass defaults. *)
Definition new_session (id host : string) (pw : option string) : QuizSession :=
  {| sid := id; host_id := host; state := LOBBY; players := ∅; quiz := None;
     password := pw; current_question_idx := -1; answer_counts := fresh_counts;
     answer_log := ∅; answer_time_log := ∅; connections := ∅ |}.

(** Record-update helpers (Python attribute assignment). *)
Definition set_players (s : QuizSession) (ps : gmap string Player) : QuizSession :=
  {| sid := sid s; host_id := host_id s; state := state s; players := ps;
     quiz := quiz s; password := password s;
     current_question_idx := current_question_idx s;
     answer_counts := answer_counts s; answer_log := answer_log s;
     answer_time_log := answer_time_log s; connections := connections s |}.

Definition set_connections (s : QuizSession) (cs : gmap string WebSocket) : QuizSession :=
  {| sid := sid s; host_id := host_id s; state := state s; players := players s;
     quiz := quiz s; password := password s;
     current_question_idx := current_question_idx s;
     answer_counts := answer_counts s; answer_log := answer_log s;
     answer_time_log := answer_time_log s; connections := cs |}.

Definition set_state (s : QuizSession) (st : QuizState) : QuizSession :=
  {| sid := sid s; host_id := host_id s; state := st; players := players s;
     quiz := quiz s; password := password s;
     current_question_idx := current_question_idx s;
     answer_counts := answer_counts s; answer_log := answer_log s;
     answer_time_log := answer_time_log s; connections := connections s |}.

Definition set_player_score (p : Player) (n : Z) : Player :=
  {| player_id := player_id p; score := n; answered_current := answered_current p;
     round_scores := round_scores p; last_pong := last_pong p;
     latency_ms := latency_ms p; last_seen := last_seen p;
     is_muted := is_muted p; status := status p |}.

Definition set_answered (p : Player) (b : bool) : Player :=
  {| player_id := player_id p; score := score p; answered_current := b;
     round_scores := round_scores p; last_pong := last_pong p;
     latency_ms := latency_ms p; last_seen := last_seen p;
     is_muted := is_muted p; status := status p |}.

Definition append_round_score (p : Player) (pts : Z) : Player :=
  {| player_id := player_id p; score := score p;
     answered_current := answered_current p;
     round_scores := round_scores p ++ [pts]; last_pong := last_pong p;
     latency_ms := latency_ms p; last_seen := last_seen p;
     is_muted := is_muted p; status := status p |}.

Definition set_last_seen (p : Player) (t : Q) : Player :=
  {| player_id := player_id p; score := score p;
     answered_current := answered_current p;
     round_scores := round_scores p; last_pong := last_pong p;
     latency_ms := latency_ms p; last_seen := Some t;
     is_muted := is_muted p; status := status p |}.

Definition set_pong (p : Player) (now lat : Q) : Player :=
  {| player_id := player_id p; score := score p;
     answered_current := answered_current p;
     round_scores := round_scores p; last_pong := Some now;
     latency_ms := Some lat; last_seen := Some now;
     is_muted := is_muted p; status := status p |}.

Definition set_status (p : Player) (st : string) : Player :=
  {| player_id := player_id p; score := score p;
     answered_current := answered_current p;
     round_scores := round_scores p; last_pong := last_pong p;
     latency_ms := latency_ms p; last_seen := last_seen p;
     is_muted := is_muted p; status := st |}.

(** ** Player management *)

(** [add_player]: scans [players.values()] for a record whose [player_id]
    equals the new id; if found returns [None] without touching the session,
    otherwise inserts a fresh [Player] and registers the socket. *)
Definition add_player (s : QuizSession) (pid : string) (ws : WebSocket)
    : option Player * QuizSession :=
  if existsb (fun p => bool_decide (player_id p = pid)) (map snd (map_to_list (players s)))
  then (None, s)
  else
    let p := new_player pid in
    (Some p, set_connections (set_players s (<[pid:=p]> (players s)))
                             (<[pid:=ws]> (connections s))).

(** [remove_player]: [players.pop(pid, None)]; [connections.pop(pid, None)]. *)
Definition remove_player (s : QuizSession) (pid : string) : QuizSession :=
  set_connections (set_players s (delete pid (players s))) (delete pid (connections s)).

(** ** Quiz lifecycle *)

(** [load_quiz]: sets the quiz, resets the index to -1, the quick counts,
    clears [answer_log], returns to LOBBY and resets [score] and
    [answered_current] of every player.  [answer_time_log], [round_scores]
    and the connections are not touched by the source. *)
Definition load_quiz (s : QuizSession) (qz : Quiz) : QuizSession :=
  {| sid := sid s; host_id := host_id s; state := LOBBY;
     players := (fun p => set_answered (set_player_score p 0) false) <$> players s;
     quiz := Some qz; password := password s;
     current_question_idx := -1; answer_counts := fresh_counts;
     answer_log := ∅; answer_time_log := answer_time_log s;
     connections := connections s |}.

(** [start_quiz]: fails when no quiz is loaded or it has no questions;
    otherwise only the state changes to ACTIVE. *)
Definition start_quiz (s : QuizSession) : bool * QuizSession :=
  match quiz s with
  | None => (false, s)
  | Some qz =>
      match questions qz with
      | [] => (false, s)
      | _ :: _ => (true, set_state s ACTIVE)
      end
  end.

(** [_reset_current_question_state]. *)
Definition reset_current_question_state (s : QuizSession) : QuizSession :=
  {| sid := sid s; host_id := host_id s; state := state s;
     players := (fun p => set_answered p false) <$> players s;
     quiz := quiz s; password := password s;
     current_question_idx := current_question_idx s;
     answer_counts := fresh_counts;
     answer_log := if decide (0 <= current_question_idx s)
                   then <[current_question_idx s := ∅]> (answer_log s)
                   else answer_log s;
     answer_time_log := answer_time_log s;
     connections := connections s |}.

Definition set_idx (s : QuizSession) (i : Z) : QuizSession :=
  {| sid := sid s; host_id := host_id s; state := state s; players := players s;
     quiz := quiz s; password := password s; current_question_idx := i;
     answer_counts := answer_counts s; answer_log := answer_log s;
     answer_time_log := answer_time_log s; connections := connections s |}.

(** [next_question]. *)
Definition next_question (s : QuizSession) : option Question * QuizSession :=
  match quiz s with
  | None => (None, s)
  | Some qz =>
      let i := current_question_idx s + 1 in
      let s1 := set_idx s i in
      if decide (Z.of_nat (length (questions qz)) <= i)
      then (None, set_state s1 FINISHED)
      else (questions qz !! Z.to_nat i, reset_current_question_state s1)
  end.

(** [get_current_question]. *)
Definition get_current_question (s : QuizSession) : option Question :=
  match quiz s with
  | None => None
  | Some qz =>
      if decide (current_question_idx s < 0) then None
      else if decide (Z.of_nat (length (questions qz)) <= current_question_idx s)
      then None
      else questions qz !! Z.to_nat (current_question_idx s)
  end.

(** Points of one player in [close_question_scoring]. *)
Definition round_points (q : Question) (bucket : gmap string Z) (pid : string) : Z :=
  match bucket !! pid with
  | Some ans => if decide (ans = correct_idx q) then 1 else 0
  | None => 0
  end.

(** [close_question_scoring]: for the current question, append the round's
    points to every player's [round_scores]; [score] is not changed here. *)
Definition close_question_scoring (s : QuizSession) : QuizSession :=
  match get_current_question s with
  | None => s
  | Some q =>
      let bucket := from_option id ∅ (answer_log s !! current_question_idx s) in
      set_players s (map_imap (fun pid p => Some (append_round_score p (round_points q bucket pid)))
                              (players s))
  end.

(** ** Answer tracking *)

(** [dict.setdefault(k, d)]: returns the stored value and the (possibly
    extended) dict. *)
Definition setdefault {V} (m : gmap Z V) (k : Z) (d : V) : V * gmap Z V :=
  match m !! k with
  | Some v => (v, m)
  | None => (d, <[k:=d]> m)
  end.

Definition set_logs (s : QuizSession) (al : gmap Z (gmap string Z))
    (tl : gmap Z (gmap string Q)) : QuizSession :=
  {| sid := sid s; host_id := host_id s; state := state s; players := players s;
     quiz := quiz s; password := password s;
     current_question_idx := current_question_idx s;
     answer_counts := answer_counts s; answer_log := al;
     answer_time_log := tl; connections := connections s |}.

(** [record_answer(player_id, answer_idx, elapsed)]. *)
Definition record_answer (s : QuizSession) (pid : string) (a : Z) (elapsed : option Q)
    : bool * QuizSession :=
  match players s !! pid with
  | None => (false, s)
  | Some p =>
      match get_current_question s with
      | None => (false, s)
      | Some q =>
          let qi := current_question_idx s in
          let '(bucket, log1) := setdefault (answer_log s) qi ∅ in
          let '(tbucket, tlog1) := setdefault (answer_time_log s) qi ∅ in
          let s1 := set_logs s log1 tlog1 in
          if answered_current p || bool_decide (is_Some (bucket !! pid)) then (false, s1)
          else
            let log2 := <[qi := <[pid:=a]> bucket]> log1 in
            let tlog2 := match elapsed with
                         | Some e => <[qi := <[pid:=e]> tbucket]> tlog1
                         | None => tlog1
                         end in
            let counts := match answer_counts s !! a with
                          | Some c => <[a := c + 1]> (answer_counts s)
                          | None => answer_counts s
                          end in
            let p1 := set_answered p true in
            let ok := bool_decide (0 <= a < Z.of_nat (length (options q)) /\ a = correct_idx q) in
            let p2 := if ok then set_player_score p1 (score p1 + 1) else p1 in
            (ok, {| sid := sid s; host_id := host_id s; state := state s;
                    players := <[pid:=p2]> (players s);
                    quiz := quiz s; password := password s;
                    current_question_idx := qi; answer_counts := counts;
                    answer_log := log2; answer_time_log := tlog2;
                    connections := connections s |})
      end
  end.

(** [get_answer_counts(question_idx=None)]: a 4-slot histogram computed from
    the answer-log bucket; indices outside [0, 4) are skipped. *)
Definition count_answer (counts : list Z) (ans : Z) : list Z :=
  if decide (0 <= ans < Z.of_nat (length counts))
  then <[Z.to_nat ans := from_option id 0 (counts !! Z.to_nat ans) + 1]> counts
  else counts.

Definition get_answer_counts (s : QuizSession) (question_idx : option Z) : list Z :=
  let qi := match question_idx with Some i => i | None => current_question_idx s end in
  if decide (qi < 0) then [0; 0; 0; 0]
  else
    let bucket := from_option id ∅ (answer_log s !! qi) in
    foldl (fun c kv => count_answer c kv.2) [0; 0; 0; 0] (map_to_list bucket).

(** ** Server handlers (app.py) *)

Definition PLAYER_TIMEOUT : Q := 60.
Definition HARD_TIMEOUT : Q := 300.

(** [broadcast(session, payload)]: sends to every entry of a snapshot of
    [session.connections]; [send_ok ws] tells whether [ws.send_text] returns
    normally (a [false] is any exception, caught by the bare [except]).
    Returns the ids reached and the ids whose send failed. *)
Fixpoint send_all (send_ok : WebSocket -> bool) (conns : list (string * WebSocket))
    : list string * list string :=
  match conns with
  | [] => ([], [])
  | (pid, ws) :: rest =>
      let '(ok, dead) := send_all send_ok rest in
      if send_ok ws then (pid :: ok, dead) else (ok, pid :: dead)
  end.

(** After the loop: [for pid in dead: session.connections.pop(pid, None)]. *)
Definition broadcast (s : QuizSession) (send_ok : WebSocket -> bool)
    : list string * QuizSession :=
  let '(ok, dead) := send_all send_ok (map_to_list (connections s)) in
  (ok, set_connections s (foldl (fun cs pid => delete pid cs) (connections s) dead)).

(** [player.kick] handler: only a player with a registered connection is
    kicked; the socket is sent [kicked] and closed, then [remove_player]. *)
Definition kick_player (s : QuizSession) (kid : string) : QuizSession :=
  if bool_decide (is_Some (connections s !! kid)) then remove_player s kid else s.

(** Start of the receive loop: [player.last_seen = now] for any inbound
    message from a player of the connection's session. *)
Definition touch_inbound (s : QuizSession) (pid : string) (now : Q) : QuizSession :=
  match players s !! pid with
  | Some p => set_players s (<[pid := set_last_seen p now]> (players s))
  | None => s
  end.

(** The [pong] branch: [last_pong], [last_seen] and
    [latency_ms = (now - data.get("ts", now)) * 500]. *)
Definition handle_pong (s : QuizSession) (pid : string) (now : Q) (ts : option Q)
    : QuizSession :=
  match players s !! pid with
  | Some p =>
      let t := match ts with Some t => t | None => now end in
      set_players s (<[pid := set_pong p now ((now - t) * 500)%Q]> (players s))
  | None => s
  end.

(** Liveness part of processing one inbound message of type [msg_type]. *)
Definition inbound_liveness (s : QuizSession) (pid : string) (msg_type : string)
    (now : Q) (ts : option Q) : QuizSession :=
  let s1 := touch_inbound s pid now in
  if bool_decide (msg_type = "pong") then handle_pong s1 pid now ts else s1.

(** [player.last_seen or player.last_pong]: a float [0.0] is falsy. *)
Definition last_contact (p : Player) : option Q :=
  match last_seen p with
  | Some x => if Qeq_bool x 0 then last_pong p else Some x
  | None => last_pong p
  end.

Inductive Liveness := Keep | Stale | Dead.

#[global] Instance Liveness_eq_dec : EqDecision Liveness.
Proof. solve_decision. Defined.

Definition classify (now : Q) (p : Player) : Liveness :=
  match last_contact p with
  | None => Keep
  | Some last =>
      let silence := (now - last)%Q in
      if Qlt_le_dec HARD_TIMEOUT silence then Dead
      else if Qlt_le_dec PLAYER_TIMEOUT silence then
        (if bool_decide (status p = "active") then Stale else Keep)
      else Keep
  end.

(** One session's pass of [ping_loop] (the pings themselves ignore send
    errors and change nothing): stale players are marked, then each dead
    player is removed and a lobby update is broadcast. *)
Definition ping_sweep (s : QuizSession) (now : Q) (send_ok : WebSocket -> bool)
    : QuizSession :=
  let ps := map_to_list (players s) in
  let stale := map fst (filter (fun kv => classify now kv.2 = Stale) ps) in
  let dead := map fst (filter (fun kv => classify now kv.2 = Dead) ps) in
  let s1 := set_players s
              (foldl (fun m pid => alter (fun p => set_status p "stale") pid m)
                     (players s) stale) in
  foldl (fun s2 pid => snd (broadcast (remove_player s2 pid) send_ok)) s1 dead.

(** [quiz.start] handler: [start_quiz] and, when it succeeds, immediately
    [next_question] (the question or the leaderboard is then broadcast). *)
Definition handle_quiz_start (s : QuizSession) : QuizSession :=
  let '(ok, s1) := start_quiz s in
  if ok then snd (next_question s1) else s.

(** [question.end] handler. *)
Definition handle_question_end (s : QuizSession) : QuizSession :=
  match get_current_question s with
  | None => s
  | Some _ => close_question_scoring s
  end.

(** Student disconnect in the [finally] block. *)
Definition handle_student_disconnect (s : QuizSession) (pid : string) : QuizSession :=
  remove_player (set_connections s (delete pid (connections s))) pid.

(** ** Operation sequences

    [SessionOp]: the [QuizSession] methods (plus the direct
    [session.state = FINISHED] write of [quiz.stop]).  [HandlerMsg]: what
    one message, one [broadcast] or one [ping_loop] pass does to a session
    in [app.py]. *)
Inductive SessionOp :=
| OAdd (pid : string) (ws : WebSocket)
| ORemove (pid : string)
| OLoad (qz : Quiz)
| OStart
| ONext
| OClose
| ORecord (pid : string) (a : Z) (e : option Q)
| OStop.

Definition run_session_op (s : QuizSession) (o : SessionOp) : QuizSession :=
  match o with
  | OAdd pid ws => snd (add_player s pid ws)
  | ORemove pid => remove_player s pid
  | OLoad qz => load_quiz s qz
  | OStart => snd (start_quiz s)
  | ONext => snd (next_question s)
  | OClose => close_question_scoring s
  | ORecord pid a e => snd (record_answer s pid a e)
  | OStop => set_state s FINISHED
  end.

Definition run_session_ops (s : QuizSession) (os : list SessionOp) : QuizSession :=
  foldl run_session_op s os.

Inductive HandlerMsg :=
| MJoin (pid : string) (ws : WebSocket)
| MLoad (qz : Quiz)
| MStart
| MNext
| MEnd
| MKick (kid : string)
| MStop
| MSubmit (pid : string) (a : Z) (e : option Q)
| MBroadcast (send_ok : WebSocket -> bool)
| MInbound (pid : string) (msg_type : string) (now : Q) (ts : option Q)
| MPing (now : Q) (send_ok : WebSocket -> bool)
| MDisconnect (pid : string).

Definition run_handler (s : QuizSession) (m : HandlerMsg) : QuizSession :=
  match m with
  | MJoin pid ws => snd (add_player s pid ws)
  | MLoad qz => load_quiz s qz
  | MStart => handle_quiz_start s
  | MNext => snd (next_question s)
  | MEnd => handle_question_end s
  | MKick kid => kick_player s kid
  | MStop => set_state s FINISHED
  | MSubmit pid a e => snd (record_answer s pid a e)
  | MBroadcast ok => snd (broadcast s ok)
  | MInbound pid ty now ts => inbound_liveness s pid ty now ts
  | MPing now ok => ping_sweep s now ok
  | MDisconnect pid => handle_student_disconnect s pid
  end.

Definition run_handlers (s : QuizSession) (ms : list HandlerMsg) : QuizSession :=
  foldl run_handler s ms.

Definition is_session_load (o : SessionOp) : bool :=
  match o with OLoad _ => true | _ => false end.

Definition is_handler_load (m : HandlerMsg) : bool :=
  match m with MLoad _ => true | _ => false end.

(** The invariant of the spec: ACTIVE implies a loaded quiz and an index
    below its number of questions. *)
Definition active_in_range (s : QuizSession) : Prop :=
  state s = ACTIVE ->
  exists qz, quiz s = Some qz /\ current_question_idx s < Z.of_nat (length (questions qz)).

(** Every player record is stored under its own id. *)
Definition keys_consistent (s : QuizSession) : Prop :=
  map_Forall (fun k p => player_id p = k) (players s).

(** Sum of a Python list of ints. *)
Definition sum_Z (l : list Z) : Z := fold_right Z.add 0 l.

(** The time-decayed scoring formula of the spec (section 4.4), written
    from its words ([points = max(minPoints, remaining / duration * maxPoints)],
    [remaining = max(0, duration - elapsed)],
    [minPoints = floor(maxPoints * 0.5)]) to compare with the flat scoring
    of [record_answer] and [close_question_scoring]; the source has no
    such formula and its [Quiz] has no max points or duration. *)
Definition spec_points (max_points duration elapsed : Q) : Q :=
  let remaining := Qmax 0 (duration - elapsed) in
  let min_points := inject_Z (Qfloor (max_points * (1#2))) in
  Qmax min_points (remaining / duration * max_points).

(** ** Concrete sessions used by the examples *)

Definition q1 : Question := mkQuestion "2+2?" ["3"; "4"; "5"; "6"] 1 "q1".
Definition quiz1 : Quiz := mkQuiz "demo quiz" [q1] "z1".

(** Host [h1] creates "demo" (the host is added as a player), loads [quiz1],
    student [s1] joins, the host starts the quiz. *)
Definition demo_started : QuizSession :=
  run_handlers (new_session "demo" "h1" None)
    [MJoin "h1" 0%nat; MLoad quiz1; MJoin "s1" 1%nat; MStart].

(** [s1] answers option 1 (the correct one) after 5 seconds. *)
Definition demo_answered : QuizSession :=
  run_handlers demo_started [MSubmit "s1" 1 (Some 5%Q)].

(** The host then ends the question ([question.end]). *)
Definition demo_scored : QuizSession :=
  run_handlers demo_answered [MEnd].

(** [s1] submits without an [answer_idx] field: the handler passes the
    default [-1]. *)
Definition demo_missing_idx : QuizSession :=
  run_handlers demo_started [MSubmit "s1" (-1) None].

(** In-range test of [get_answer_counts] for its 4 slots. *)
Definition counted (kv : string * Z) : bool := bool_decide (0 <= kv.2 < 4).

(** The host sends [question.end] a second time for the same question. *)
Definition demo_scored_twice : QuizSession :=
  run_handlers demo_scored [MEnd].

(** [QuizSession] method calls: load a one-question quiz, start, advance
    twice (past the last question: FINISHED), start again. *)
Definition restarted_after_finish : QuizSession :=
  run_session_ops (new_session "demo" "h1" None) [OLoad quiz1; OStart; ONext; ONext; OStart].

(** Same session, with state, quiz and index only. *)
Definition same_core (s s' : QuizSession) : Prop :=
  state s' = state s /\ quiz s' = quiz s /\ current_question_idx s' = current_question_idx s.

(** The host kicks [s1]. *)
Definition demo_kicked : QuizSession :=
  run_handlers demo_started [MKick "s1"].

(** [s1] sends a chat message at t = 10 s. *)
Definition demo_seen : QuizSession :=
  run_handlers demo_started [MInbound "s1" "chat" 10 None].

(** A [ping_loop] pass at t = 100 s (90 s of silence: stale, not dead). *)
Definition demo_stale : QuizSession :=
  run_handlers demo_seen [MPing 100 (fun _ => true)].

(** [s1] answers with a late [pong] at t = 110 s. *)
Definition demo_late_pong : QuizSession :=
  run_handlers demo_stale [MInbound "s1" "pong" 110 (Some 109%Q)].

(** A broadcast in which the send to [s1]'s socket (handle 1) fails. *)
Definition demo_send_fails : QuizSession :=
  run_handlers demo_started [MBroadcast (fun ws => negb (Nat.eqb ws 1))].

(** After scoring question 0, the host loads a quiz again. *)
Definition demo_reloaded : QuizSession :=
  run_handlers demo_scored [MLoad quiz1].

(** ** JSON dicts (to_dict / from_dict of quiz_types.py)

    A JSON value as produced by [json.loads]; a dict is an association
    list whose keys are distinct (as in a Python dict).  Values of a JSON
    type the dataclass field does not expect are outside this typed model:
    the decoders below return [None] on them, as they do on a missing
    required key ([KeyError]). *)
#[warnings="-register-all"]
Inductive JVal :=
| JNull
| JBool (b : bool)
| JInt (z : Z)
| JStr (s : string)
| JList (l : list JVal)
| JObj (kvs : list (string * JVal)).

(** [d[k]] / [d.get(k)]. *)
Fixpoint dget (kvs : list (string * JVal)) (k : string) : option JVal :=
  match kvs with
  | [] => None
  | (k', v) :: rest => if String.eqb k k' then Some v else dget rest k
  end.

Definition as_str (v : JVal) : option string :=
  match v with JStr s => Some s | _ => None end.

Definition as_int (v : JVal) : option Z :=
  match v with JInt z => Some z | _ => None end.

Definition as_str_list (v : JVal) : option (list string) :=
  match v with JList l => mapM as_str l | _ => None end.

(** [Question.to_dict]. *)
Definition Question_to_dict (q : Question) : JVal :=
  JObj [("id", JStr (qid q)); ("prompt", JStr (prompt q));
        ("options", JList (map JStr (options q)));
        ("correct_idx", JInt (correct_idx q))].

(** [Question.from_dict]: [fresh] is the [str(uuid.uuid4())[:8]] default
    used when the dict has no "id". *)
Definition Question_from_dict (fresh : string) (d : JVal) : option Question :=
  match d with
  | JObj kvs =>
      i ← (match dget kvs "id" with Some v => as_str v | None => Some fresh end);
      p ← dget kvs "prompt" ≫= as_str;
      o ← dget kvs "options" ≫= as_str_list;
      c ← dget kvs "correct_idx" ≫= as_int;
      Some (mkQuestion p o c i)
  | _ => None
  end.

(** [Quiz.to_dict]. *)
Definition Quiz_to_dict (z : Quiz) : JVal :=
  JObj [("quiz_id", JStr (quiz_id z)); ("title", JStr (title z));
        ("questions", JList (map Question_to_dict (questions z)))].

(** [Quiz.from_dict]: [zfresh] is the default quiz id, [qfresh i] the
    default id of the i-th question. *)
Definition Quiz_from_dict (zfresh : string) (qfresh : nat -> string) (d : JVal) : option Quiz :=
  match d with
  | JObj kvs =>
      i ← (match dget kvs "quiz_id" with Some v => as_str v | None => Some zfresh end);
      t ← dget kvs "title" ≫= as_str;
      qs ← (match dget kvs "questions" with
            | Some (JList l) => mapM (fun '(n, v) => Question_from_dict (qfresh n) v)
                                     (zip (seq 0 (length l)) l)
            | _ => None
            end);
      Some (mkQuiz t qs i)
  | _ => None
  end.

Record StudentQuestion := mkStudentQuestion {
  sq_id : string;
  sq_prompt : string;
  sq_options : list string;
  sq_index : Z;
  sq_total : Z;
  sq_timer : option Z
}.

(** [StudentQuestion.from_question]. *)
Definition from_question (q : Question) : StudentQuestion :=
  mkStudentQuestion (qid q) (prompt q) (options q) 0 0 None.

(** [StudentQuestion.to_dict]. *)
Definition StudentQuestion_to_dict (sq : StudentQuestion) : JVal :=
  JObj [("id", JStr (sq_id sq)); ("prompt", JStr (sq_prompt sq));
        ("options", JList (map JStr (sq_options sq)));
        ("index", JInt (sq_index sq)); ("total", JInt (sq_total sq));
        ("timer", match sq_timer sq with Some t => JInt t | None => JNull end)].

(** [StudentQuestion.from_dict] (used by the client on [question.next]). *)
Definition StudentQuestion_from_dict (d : JVal) : option StudentQuestion :=
  match d with
  | JObj kvs =>
      i ← dget kvs "id" ≫= as_str;
      p ← dget kvs "prompt" ≫= as_str;
      o ← dget kvs "options" ≫= as_str_list;
      idx ← (match dget kvs "index" with Some v => as_int v | None => Some 0 end);
      tot ← (match dget kvs "total" with Some v => as_int v | None => Some 0 end);
      tm ← (match dget kvs "timer" with
            | None | Some JNull => Some None
            | Some (JInt t) => Some (Some t)
            | Some _ => None
            end);
      Some (mkStudentQuestion i p o idx tot tm)
  | _ => None
  end.

(** The [question] field of the [question.next] message built by the
    [quiz.start] and [question.next] handlers. *)
Definition question_next_payload (s : QuizSession) (q : Question) : JVal :=
  let sq := from_question q in
  StudentQuestion_to_dict
    (mkStudentQuestion (sq_id sq) (sq_prompt sq) (sq_options sq)
       (current_question_idx s)
       (Z.of_nat (length (from_option questions [] (quiz s))))
       (Some 10)).

(** ** Session registry ([quiz_sessions], [create_session], [get_session],
    [delete_session]) *)
Abbreviation Registry := (gmap string QuizSession).

(** [create_session(host_id, session_id, password)]: [token] is the value
    of [secrets.token_urlsafe(6)], drawn when no id is given; an explicit id
    already registered raises [ValueError] ([None]). *)
Definition create_session (reg : Registry) (host : string) (session_id : option string)
    (pw : option string) (token : string) : option (QuizSession * Registry) :=
  match session_id with
  | None =>
      let s := new_session token host pw in Some (s, <[token:=s]> reg)
  | Some id =>
      if bool_decide (is_Some (reg !! id)) then None
      else let s := new_session id host pw in Some (s, <[id:=s]> reg)
  end.

Definition get_session (reg : Registry) (id : string) : option QuizSession := reg !! id.

(** [quiz_sessions.pop(session_id, None)]. *)
Definition delete_session (reg : Registry) (id : string) : Registry := delete id reg.

(** ** Password gate of the [session.join] handler

    For a found session: [if session.password:] (so [None] and [""] mean no
    password), then [attempts <= 0] closes the socket ([break]), otherwise a
    wrong password costs one attempt ([reject.pw], [continue]); on a match
    (or no password) the handler goes on to [add_player].  [conn["attempts"]]
    starts at 3 and is never reset. *)
Inductive PwOutcome := PwClosed | PwRejected (left : Z) | PwPass.

Definition password_set (spw : option string) : bool :=
  match spw with Some p => negb (String.eqb p "") | None => false end.

Definition pw_gate (attempts : Z) (spw : option string) (pw : option string)
    : PwOutcome * Z :=
  if password_set spw then
    if decide (attempts <= 0) then (PwClosed, attempts)
    else if bool_decide (pw <> spw) then (PwRejected (attempts - 1), attempts - 1)
    else (PwPass, attempts)
  else (PwPass, attempts).

(** Successive [session.join] messages on one connection; the loop ends at
    [PwClosed]. *)
Fixpoint join_attempts (attempts : Z) (spw : option string) (pws : list (option string))
    : list PwOutcome :=
  match pws with
  | [] => []
  | pw :: rest =>
      let '(o, a') := pw_gate attempts spw pw in
      match o with
      | PwClosed => [PwClosed]
      | _ => o :: join_attempts a' spw rest
      end
  end.


(** ** Leaderboard ([quiz.finished] / [quiz.stop] handlers)

    [sorted(session.players.values(), key=lambda x: x.score, reverse=True)]:
    Python's sort is stable, also with [reverse=True], so a record is placed
    after every earlier record of the same score.  [ps] is the dict's values
    in insertion order. *)
Fixpoint insert_by_score (p : Player) (l : list Player) : list Player :=
  match l with
  | [] => [p]
  | x :: r => if Z.ltb (score x) (score p) then p :: l else x :: insert_by_score p r
  end.

Definition sorted_by_score_desc (ps : list Player) : list Player :=
  foldl (fun acc p => insert_by_score p acc) [] ps.

Definition leaderboard (ps : list Player) : list (string * Z) :=
  map (fun p => (player_id p, score p)) (sorted_by_score_desc ps).

(** ** Quick counts against the answer log

    [answer_counts] is documented as kept in sync with [answer_log]. *)
Definition count_eq (i : Z) (l : list (string * Z)) : nat :=
  length (List.filter (fun kv => bool_decide (kv.2 = i)) l).

Definition counts_in_sync (s : QuizSession) : Prop :=
  is_Some (get_current_question s) ->
  forall i : nat, (i < 4)%nat ->
    answer_counts s !! Z.of_nat i = get_answer_counts s None !! i.

(** The fields [counts_in_sync] reads. *)
Definition hist_same (s s' : QuizSession) : Prop :=
  answer_counts s' = answer_counts s /\ answer_log s' = answer_log s /\
  quiz s' = quiz s /\ current_question_idx s' = current_question_idx s.


(** The order of the leaderboard, and the players of one score. *)
Definition score_ge (a b : Player) : Prop := score b <= score a.

Definition score_is (z : Z) (p : Player) : bool := bool_decide (score p = z).

(** * Theorems *)

(** ** Player management *)

Lemma add_player_finds (s : QuizSession) (pid : string) (p : Player) :
  players s !! pid = Some p -> player_id p = pid ->
  existsb (fun p => bool_decide (player_id p = pid)) (map snd (map_to_list (players s))) = true.
Proof.
  intros Hp Hid. apply existsb_exists. exists p. split.
  - apply in_map_iff. exists (pid, p). split; [done |].
    apply list_elem_of_In. by apply elem_of_map_to_list.
  - by apply bool_decide_eq_true.
Qed.

Lemma add_player_rejects_iff (s : QuizSession) (pid : string) (ws : WebSocket) :
  fst (add_player s pid ws) = None <->
  exists k p, players s !! k = Some p /\ player_id p = pid.
Proof.
  unfold add_player. destruct (existsb _ _) eqn:E; simpl.
  - split; [intros _ | done].
    apply existsb_exists in E as [p [Hin Hb]].
    apply bool_decide_eq_true in Hb.
    apply in_map_iff in Hin as [[k p'] [Heq Hin]]. simpl in Heq; subst p'.
    apply list_elem_of_In, elem_of_map_to_list in Hin. eauto.
  - split; [done |]. intros (k & p & Hk & Hid).
    assert (existsb (fun p => bool_decide (player_id p = pid))
              (map snd (map_to_list (players s))) = true) as E'.
    { apply existsb_exists. exists p. split.
      - apply in_map_iff. exists (k, p). split; [done |].
        apply list_elem_of_In. by apply elem_of_map_to_list.
      - by apply bool_decide_eq_true. }
    congruence.
Qed.

(** C10: [add_player] with an id already present in the players map returns
    [None] and leaves the whole session (players, connections, every
    player record) unchanged: the rejected joiner's socket is not
    registered. *)
Theorem add_player_reject_atomic (s : QuizSession) (pid : string) (ws : WebSocket) :
  keys_consistent s -> is_Some (players s !! pid) ->
  add_player s pid ws = (None, s).
Proof.
  intros Hk [p Hp]. unfold add_player.
  rewrite (add_player_finds s pid p Hp); [done |].
  exact (Hk pid p Hp).
Qed.

Lemma add_player_reject_atomic_witness :
  keys_consistent demo_started /\ is_Some (players demo_started !! "s1") /\
  add_player demo_started "s1" 7%nat = (None, demo_started).
Proof.
  assert (keys_consistent demo_started) as Hk.
  { unfold keys_consistent. apply (bool_decide_unpack _). vm_compute. reflexivity. }
  assert (is_Some (players demo_started !! "s1")) as Hs by (vm_compute; eauto).
  split; [exact Hk |]. split; [exact Hs |].
  apply (add_player_reject_atomic demo_started "s1" 7%nat Hk Hs).
Defined.

(** ** Answer recording *)

Lemma setdefault_found {V} (m : gmap Z V) (k : Z) (d v : V) :
  m !! k = Some v -> setdefault m k d = (v, m).
Proof. intros H. unfold setdefault. by rewrite H. Qed.

Lemma setdefault_lookup {V} (m : gmap Z V) (k : Z) (d : V) :
  (setdefault m k d).2 !! k = Some (setdefault m k d).1.
Proof.
  unfold setdefault. destruct (m !! k) eqn:E; simpl; [done |].
  apply lookup_insert_eq.
Qed.

Lemma setdefault_bucket {V} (m : gmap Z V) (k : Z) (d : V) :
  (setdefault m k d).1 = from_option id d (m !! k).
Proof. unfold setdefault. by destruct (m !! k). Qed.

Lemma set_logs_eta (s : QuizSession) : set_logs s (answer_log s) (answer_time_log s) = s.
Proof. by destruct s. Qed.

Lemma get_current_question_ext (s s' : QuizSession) :
  quiz s' = quiz s -> current_question_idx s' = current_question_idx s ->
  get_current_question s' = get_current_question s.
Proof. intros Hq Hi. unfold get_current_question. by rewrite Hq, Hi. Qed.

(** The general shape of a rejected call: only the two [setdefault]s
    happened. *)
Lemma record_answer_rejected (s : QuizSession) (pid : string) (p : Player)
    (q : Question) (a : Z) (e : option Q) :
  players s !! pid = Some p -> get_current_question s = Some q ->
  answered_current p = true \/
    is_Some (from_option id ∅ (answer_log s !! current_question_idx s) !! pid) ->
  record_answer s pid a e =
    (false, set_logs s (setdefault (answer_log s) (current_question_idx s) ∅).2
                       (setdefault (answer_time_log s) (current_question_idx s) ∅).2).
Proof.
  intros Hp Hq Hrej. unfold record_answer. rewrite Hp, Hq.
  rewrite <- setdefault_bucket in Hrej.
  destruct (setdefault (answer_log s) _ ∅) as [bucket log1] eqn:E1.
  destruct (setdefault (answer_time_log s) _ ∅) as [tbucket tlog1] eqn:E2.
  simpl in Hrej |- *.
  destruct Hrej as [-> | Hin]; [done |].
  rewrite (bool_decide_eq_true_2 _ Hin). by rewrite orb_true_r.
Qed.

(** The general shape of an accepted call. *)
Lemma record_answer_accepted (s : QuizSession) (pid : string) (p : Player)
    (q : Question) (a : Z) (e : option Q) :
  players s !! pid = Some p -> get_current_question s = Some q ->
  answered_current p = false ->
  from_option id ∅ (answer_log s !! current_question_idx s) !! pid = None ->
  let ok := bool_decide (0 <= a < Z.of_nat (length (options q)) /\ a = correct_idx q) in
  exists s', record_answer s pid a e = (ok, s') /\
    answer_log s' = <[current_question_idx s :=
                       <[pid:=a]> (from_option id ∅ (answer_log s !! current_question_idx s))]>
                     (answer_log s) /\
    players s' = <[pid := if ok then set_player_score (set_answered p true) (score p + 1)
                          else set_answered p true]> (players s) /\
    is_Some (answer_time_log s' !! current_question_idx s) /\
    quiz s' = quiz s /\ current_question_idx s' = current_question_idx s /\
    state s' = state s /\ connections s' = connections s.
Proof.
  intros Hp Hq Hans Hnot ok. unfold record_answer. rewrite Hp, Hq, Hans.
  pose proof (setdefault_lookup (answer_log s) (current_question_idx s) ∅) as L1.
  pose proof (setdefault_bucket (answer_log s) (current_question_idx s) ∅) as B1.
  pose proof (setdefault_lookup (answer_time_log s) (current_question_idx s) ∅) as L2.
  destruct (setdefault (answer_log s) _ ∅) as [bucket log1] eqn:E1.
  destruct (setdefault (answer_time_log s) _ ∅) as [tbucket tlog1] eqn:E2.
  simpl in L1, B1, L2 |- *. subst bucket.
  rewrite Hnot. simpl.
  eexists. split; [reflexivity |]. simpl.
  repeat split.
  - unfold setdefault in E1. destruct (answer_log s !! _); simplify_eq; simpl;
      [done | by rewrite insert_insert_eq].
  - destruct e; simpl; [rewrite lookup_insert_eq | rewrite L2]; eauto.
Qed.

Lemma record_answer_unknown (s : QuizSession) (pid : string) (a : Z) (e : option Q) :
  players s !! pid = None -> record_answer s pid a e = (false, s).
Proof. intros H. unfold record_answer. by rewrite H. Qed.

Lemma record_answer_no_question (s : QuizSession) (pid : string) (a : Z) (e : option Q) :
  get_current_question s = None -> record_answer s pid a e = (false, s).
Proof. intros H. unfold record_answer. destruct (players s !! pid); [by rewrite H | done]. Qed.

(** When the bucket and the time bucket of the current question exist and
    the player has answered (flag or bucket), the call changes nothing. *)
Lemma record_answer_rejected_noop (s : QuizSession) (pid : string) (p : Player)
    (a : Z) (e : option Q) (b : gmap string Z) (tb : gmap string Q) :
  players s !! pid = Some p ->
  answer_log s !! current_question_idx s = Some b ->
  answer_time_log s !! current_question_idx s = Some tb ->
  answered_current p = true \/ is_Some (b !! pid) ->
  record_answer s pid a e = (false, s).
Proof.
  intros Hp Hb Htb Hrej.
  destruct (get_current_question s) as [q |] eqn:Hq;
    [| by apply record_answer_no_question].
  rewrite (record_answer_rejected s pid p q a e Hp Hq); [| by rewrite Hb].
  rewrite (setdefault_found _ _ _ _ Hb), (setdefault_found _ _ _ _ Htb).
  by rewrite set_logs_eta.
Qed.

Lemma record_answer_second_call (s : QuizSession) (pid : string) (a1 a2 : Z)
    (e1 e2 : option Q) :
  let s1 := (record_answer s pid a1 e1).2 in
  record_answer s1 pid a2 e2 = (false, s1).
Proof.
  simpl.
  destruct (players s !! pid) as [p |] eqn:Hp;
    [| rewrite (record_answer_unknown s pid a1 e1 Hp); by apply record_answer_unknown].
  destruct (get_current_question s) as [q |] eqn:Hq;
    [| rewrite (record_answer_no_question s pid a1 e1 Hq); by apply record_answer_no_question].
  set (i := current_question_idx s).
  destruct (answered_current p) eqn:Hans;
    [| destruct (from_option id ∅ (answer_log s !! i) !! pid) as [x |] eqn:Hin].
  - rewrite (record_answer_rejected s pid p q a1 e1 Hp Hq (or_introl Hans)).
    eapply record_answer_rejected_noop; simpl;
      [exact Hp | apply setdefault_lookup | apply setdefault_lookup | by left].
  - rewrite (record_answer_rejected s pid p q a1 e1 Hp Hq); [| right; unfold i in Hin; by rewrite Hin].
    eapply record_answer_rejected_noop; simpl;
      [exact Hp | apply setdefault_lookup | apply setdefault_lookup |].
    right. rewrite setdefault_bucket. fold i. by rewrite Hin.
  - destruct (record_answer_accepted s pid p q a1 e1 Hp Hq Hans Hin)
      as (s' & Hrec & Hlog & Hpl & [tb Htb] & Hqz & Hidx & _).
    rewrite Hrec. simpl.
    eapply record_answer_rejected_noop.
    + rewrite Hpl. apply lookup_insert_eq.
    + rewrite Hlog, Hidx. apply lookup_insert_eq.
    + rewrite Hidx. exact Htb.
    + left. by destruct (bool_decide _).
Qed.

(** C3: a player has at most one entry in a question's bucket: whenever the
    player already has an entry in the current question's bucket,
    [record_answer] returns the rejection value [False] and leaves the
    answer log, every player record (hence the score) and the histograms
    unchanged; in particular a second call right after a first one, for the
    same player, is rejected and leaves the session exactly as it was. *)
Theorem record_answer_at_most_once :
  (forall (s : QuizSession) (pid : string) (a : Z) (e : option Q)
          (b : gmap string Z) (a0 : Z),
     answer_log s !! current_question_idx s = Some b -> b !! pid = Some a0 ->
     (record_answer s pid a e).1 = false /\
     answer_log (record_answer s pid a e).2 = answer_log s /\
     players (record_answer s pid a e).2 = players s /\
     answer_counts (record_answer s pid a e).2 = answer_counts s /\
     (forall oq, get_answer_counts (record_answer s pid a e).2 oq = get_answer_counts s oq)) /\
  (forall (s : QuizSession) (pid : string) (a1 a2 : Z) (e1 e2 : option Q),
     let s1 := (record_answer s pid a1 e1).2 in
     record_answer s1 pid a2 e2 = (false, s1)).
Proof.
  split; [| exact record_answer_second_call].
  intros s pid a e b a0 Hb Ha0.
  destruct (players s !! pid) as [p |] eqn:Hp;
    [| rewrite (record_answer_unknown s pid a e Hp); by repeat split].
  destruct (get_current_question s) as [q |] eqn:Hq;
    [| rewrite (record_answer_no_question s pid a e Hq); by repeat split].
  rewrite (record_answer_rejected s pid p q a e Hp Hq);
    [| right; rewrite Hb; simpl; rewrite Ha0; eauto].
  rewrite (setdefault_found _ _ _ _ Hb). simpl.
  repeat split.
Qed.

Lemma record_answer_at_most_once_witness :
  answer_log demo_answered !! current_question_idx demo_answered =
    Some (from_option id ∅ (answer_log demo_answered !! 0)) /\
  from_option id ∅ (answer_log demo_answered !! 0) !! "s1" = Some 1 /\
  (record_answer demo_answered "s1" 2 None).1 = false /\
  get_answer_counts (record_answer demo_answered "s1" 2 None).2 None =
    get_answer_counts demo_answered None.
Proof.
  assert (answer_log demo_answered !! current_question_idx demo_answered =
            Some (from_option id ∅ (answer_log demo_answered !! 0))) as H1
    by (vm_compute; reflexivity).
  assert (from_option id ∅ (answer_log demo_answered !! 0) !! "s1" = Some 1) as H2
    by (vm_compute; reflexivity).
  destruct (proj1 record_answer_at_most_once demo_answered "s1" 2 None _ 1 H1 H2)
    as (Hr & _ & _ & _ & Hc).
  split; [exact H1 |]. split; [exact H2 |]. split; [exact Hr | apply Hc].
Defined.

(** ** Histograms *)

Lemma sum_Z_insert (c : list Z) (i : nat) (x : Z) :
  (i < length c)%nat ->
  sum_Z (<[i:=x]> c) = sum_Z c - from_option id 0 (c !! i) + x.
Proof.
  revert i. induction c as [| y c IH]; intros i Hi; simpl in Hi; [lia |].
  destruct i as [| i]; simpl; [lia |].
  rewrite IH by lia. lia.
Qed.

Lemma count_answer_spec (c : list Z) (ans : Z) :
  length c = 4%nat ->
  length (count_answer c ans) = 4%nat /\
  sum_Z (count_answer c ans) = sum_Z c + (if counted ("", ans) then 1 else 0).
Proof.
  intros Hl. unfold count_answer, counted. simpl. rewrite Hl.
  case_decide as Hr.
  - rewrite bool_decide_eq_true_2 by lia. split; [by rewrite length_insert |].
    rewrite sum_Z_insert by lia.
    destruct (c !! Z.to_nat ans) eqn:E; simpl; [lia |].
    apply lookup_ge_None in E. lia.
  - rewrite bool_decide_eq_false_2 by lia. split; [done | lia].
Qed.

Lemma fold_counts_sum (l : list (string * Z)) (c : list Z) :
  length c = 4%nat ->
  sum_Z (foldl (fun c kv => count_answer c kv.2) c l) =
  sum_Z c + Z.of_nat (length (List.filter counted l)).
Proof.
  revert c. induction l as [| [k ans] l IH]; intros c Hl; simpl; [lia |].
  destruct (count_answer_spec c ans Hl) as [Hl' Hs].
  rewrite IH by exact Hl'. rewrite Hs. unfold counted. simpl.
  destruct (bool_decide (0 <= ans < 4)); simpl; lia.
Qed.

(** C4 (corrected): the 4-slot histogram of [get_answer_counts] sums to the
    number of distinct players in the question's bucket whose recorded
    option index lies in [0, 4); entries outside that range (such as the
    default -1 of a submit without [answer_idx]) are in the bucket but not
    counted.  A negative index (e.g. -1 before the first question) gives
    all zeros. *)
Theorem get_answer_counts_sum (s : QuizSession) (oq : option Z) :
  let qi := match oq with Some i => i | None => current_question_idx s end in
  let bucket := from_option id ∅ (answer_log s !! qi) in
  length (get_answer_counts s oq) = 4%nat /\
  sum_Z (get_answer_counts s oq) =
    if decide (qi < 0) then 0
    else Z.of_nat (length (List.filter counted (map_to_list bucket))).
Proof.
  simpl. unfold get_answer_counts.
  case_decide; [done |]. split.
  - assert (forall (l : list (string * Z)) (c : list Z), length c = 4%nat ->
              length (foldl (fun c kv => count_answer c kv.2) c l) = 4%nat) as Hlen.
    { induction l as [| [k ans] l IH]; intros c Hc; simpl; [done |].
      apply IH. apply (count_answer_spec c ans Hc). }
    by apply Hlen.
  - rewrite fold_counts_sum by done. simpl. lia.
Qed.

(** C4 counterexample: after the submit without [answer_idx] (recorded as
    -1 and accepted), the bucket of question 0 holds one player but the
    histogram sums to 0. *)
Lemma get_answer_counts_sum_counterexample :
  map_size (from_option id ∅ (answer_log demo_missing_idx !! 0)) = 1%nat /\
  sum_Z (get_answer_counts demo_missing_idx None) = 0 /\
  ~ (sum_Z (get_answer_counts demo_missing_idx None) =
     Z.of_nat (map_size (from_option id ∅ (answer_log demo_missing_idx !! 0)))).
Proof.
  assert (map_size (from_option id ∅ (answer_log demo_missing_idx !! 0)) = 1%nat) as H1
    by (vm_compute; reflexivity).
  assert (sum_Z (get_answer_counts demo_missing_idx None) = 0) as H2
    by (vm_compute; reflexivity).
  split; [exact H1 |]. split; [exact H2 |].
  rewrite H1, H2. simpl. lia.
Qed.

(** ** Scoring *)

Lemma close_question_scoring_lookup (s : QuizSession) (q : Question) (pid : string) :
  get_current_question s = Some q ->
  players (close_question_scoring s) !! pid =
    (fun p => append_round_score p
       (round_points q (from_option id ∅ (answer_log s !! current_question_idx s)) pid))
    <$> players s !! pid.
Proof.
  intros Hq. unfold close_question_scoring. rewrite Hq. simpl.
  rewrite map_lookup_imap. by destruct (players s !! pid).
Qed.

(** Whatever happens to the player, the [elapsed] argument plays no role. *)
Lemma record_answer_elapsed_irrelevant (s : QuizSession) (pid : string) (a : Z)
    (e e' : option Q) :
  (record_answer s pid a e).1 = (record_answer s pid a e').1 /\
  players (record_answer s pid a e).2 = players (record_answer s pid a e').2 /\
  answer_log (record_answer s pid a e).2 = answer_log (record_answer s pid a e').2.
Proof.
  unfold record_answer.
  destruct (players s !! pid) as [p |]; [| done].
  destruct (get_current_question s) as [q |]; [| done].
  destruct (setdefault (answer_log s) _ ∅) as [bucket log1].
  destruct (setdefault (answer_time_log s) _ ∅) as [tbucket tlog1].
  by destruct (answered_current p || _).
Qed.

(** C1 (corrected): scoring is flat and ignores time.  An accepted
    [record_answer] adds 1 to the player's [score] exactly when the index
    is a valid option index equal to [correct_idx], whatever [elapsed] is;
    [close_question_scoring] appends to every player's [round_scores]
    1 if the bucket holds [correct_idx] for them and 0 otherwise (wrong or
    missing answer) and leaves [score] unchanged. *)
Theorem flat_scoring :
  (forall (s : QuizSession) (pid : string) (p : Player) (q : Question) (a : Z) (e : option Q),
     players s !! pid = Some p -> get_current_question s = Some q ->
     answered_current p = false ->
     from_option id ∅ (answer_log s !! current_question_idx s) !! pid = None ->
     let ok := bool_decide (0 <= a < Z.of_nat (length (options q)) /\ a = correct_idx q) in
     (record_answer s pid a e).1 = ok /\
     (score <$> players (record_answer s pid a e).2 !! pid) =
       Some (score p + if ok then 1 else 0)) /\
  (forall (s : QuizSession) (pid : string) (a : Z) (e e' : option Q),
     (record_answer s pid a e).1 = (record_answer s pid a e').1 /\
     players (record_answer s pid a e).2 = players (record_answer s pid a e').2) /\
  (forall (s : QuizSession) (q : Question) (pid : string) (p : Player),
     get_current_question s = Some q -> players s !! pid = Some p ->
     let bucket := from_option id ∅ (answer_log s !! current_question_idx s) in
     exists p', players (close_question_scoring s) !! pid = Some p' /\
       score p' = score p /\
       round_scores p' = round_scores p ++
         [match bucket !! pid with
          | Some ans => if decide (ans = correct_idx q) then 1 else 0
          | None => 0
          end]).
Proof.
  split; [| split].
  - intros s pid p q a e Hp Hq Hans Hnot ok.
    destruct (record_answer_accepted s pid p q a e Hp Hq Hans Hnot)
      as (s' & Hrec & _ & Hpl & _).
    rewrite Hrec. simpl. rewrite Hpl, lookup_insert_eq. simpl.
    split; [done |]. unfold ok. destruct (bool_decide _); simpl; f_equal; lia.
  - intros s pid a e e'.
    destruct (record_answer_elapsed_irrelevant s pid a e e') as (H1 & H2 & _). done.
  - intros s q pid p Hq Hp bucket.
    rewrite (close_question_scoring_lookup s q pid Hq), Hp. simpl.
    eexists. split; [reflexivity |]. split; [done |]. done.
Qed.

Lemma flat_scoring_witness :
  get_current_question demo_started = Some q1 /\
  players demo_started !! "s1" = Some (new_player "s1") /\
  answered_current (new_player "s1") = false /\
  from_option id ∅ (answer_log demo_started !! current_question_idx demo_started) !! "s1" = None /\
  (record_answer demo_started "s1" 1 (Some 5%Q)).1 = true.
Proof.
  assert (get_current_question demo_started = Some q1) as Hq by (vm_compute; reflexivity).
  assert (players demo_started !! "s1" = Some (new_player "s1")) as Hp
    by (vm_compute; reflexivity).
  assert (from_option id ∅ (answer_log demo_started !! current_question_idx demo_started)
            !! "s1" = None) as Hn by (vm_compute; reflexivity).
  destruct (proj1 flat_scoring demo_started "s1" (new_player "s1") q1 1 (Some 5%Q)
              Hp Hq eq_refl Hn) as [Hr _].
  split; [exact Hq |]. split; [exact Hp |]. split; [reflexivity |]. split; [exact Hn |].
  rewrite Hr. vm_compute. reflexivity.
Defined.

(** C1 counterexample: in the spec's scenario (a correct answer after 5 s)
    the code gives [s1] a score of 1 and [round_scores = [1]], while the
    spec's formula gives 7.5 for max points 10 and duration 20 s. *)
Lemma flat_scoring_counterexample :
  from_option score 0 (players demo_scored !! "s1") = 1 /\
  from_option round_scores [] (players demo_scored !! "s1") = [1] /\
  (spec_points 10 20 5 == 15 # 2)%Q /\
  ~ (inject_Z (from_option score 0%Z (players demo_scored !! "s1")) == spec_points 10 20 5)%Q.
Proof.
  assert (from_option score 0 (players demo_scored !! "s1") = 1) as H1
    by (vm_compute; reflexivity).
  assert (spec_points 10 20 5 == 15 # 2)%Q as H2 by (vm_compute; reflexivity).
  split; [exact H1 |]. split; [vm_compute; reflexivity |]. split; [exact H2 |].
  rewrite H1, H2. vm_compute. discriminate.
Qed.

(** C2 (corrected): [close_question_scoring] has no "already finalized"
    guard.  It is a no-op only when there is no current question; with a
    current question every call appends exactly one entry to every
    player's [round_scores], whatever its length already is, and leaves
    [score] and the rest of the session unchanged. *)
Theorem close_question_scoring_appends (s : QuizSession) :
  (get_current_question s = None -> close_question_scoring s = s) /\
  (forall (q : Question) (pid : string) (p : Player),
     get_current_question s = Some q -> players s !! pid = Some p ->
     exists p', players (close_question_scoring s) !! pid = Some p' /\
       length (round_scores p') = S (length (round_scores p)) /\
       take (length (round_scores p)) (round_scores p') = round_scores p /\
       score p' = score p) /\
  (forall pid, players (close_question_scoring s) !! pid = None <-> players s !! pid = None) /\
  answer_log (close_question_scoring s) = answer_log s /\
  current_question_idx (close_question_scoring s) = current_question_idx s.
Proof.
  split; [| split; [| split; [| split]]].
  - intros H. unfold close_question_scoring. by rewrite H.
  - intros q pid p Hq Hp.
    rewrite (close_question_scoring_lookup s q pid Hq), Hp. simpl.
    eexists. split; [reflexivity |]. simpl.
    rewrite length_app. simpl. split; [lia |]. split; [| done].
    by rewrite take_app_length.
  - intros pid. destruct (get_current_question s) as [q |] eqn:Hq.
    + rewrite (close_question_scoring_lookup s q pid Hq).
      by destruct (players s !! pid).
    + unfold close_question_scoring. by rewrite Hq.
  - unfold close_question_scoring. by destruct (get_current_question s).
  - unfold close_question_scoring. by destruct (get_current_question s).
Qed.

Lemma close_question_scoring_appends_witness :
  get_current_question demo_scored = Some q1 /\
  players demo_scored !! "h1" = Some (append_round_score (new_player "h1") 0) /\
  exists p', players (close_question_scoring demo_scored) !! "h1" = Some p' /\
    length (round_scores p') = 2%nat.
Proof.
  assert (get_current_question demo_scored = Some q1) as Hq by (vm_compute; reflexivity).
  assert (players demo_scored !! "h1" = Some (append_round_score (new_player "h1") 0)) as Hp
    by (vm_compute; reflexivity).
  destruct (proj1 (proj2 (close_question_scoring_appends demo_scored)) q1 "h1" _ Hq Hp)
    as (p' & Hp' & Hlen & _).
  split; [exact Hq |]. split; [exact Hp |].
  exists p'. split; [exact Hp' | exact Hlen].
Defined.

(** C2 counterexample: after the first [question.end], [s1]'s
    [round_scores] already covers question 0 ([[1]]); a second
    [question.end] for the same question appends again, giving [[1; 1]]. *)
Lemma close_question_scoring_counterexample :
  current_question_idx demo_scored = 0 /\
  from_option round_scores [] (players demo_scored !! "s1") = [1] /\
  from_option round_scores [] (players demo_scored_twice !! "s1") = [1; 1] /\
  players demo_scored_twice !! "s1" <> players demo_scored !! "s1".
Proof.
  split; [vm_compute; reflexivity |]. split; [vm_compute; reflexivity |].
  split; [vm_compute; reflexivity |].
  vm_compute. discriminate.
Qed.

(** ** Question index and lifecycle state *)

(** Field-wise goals about record updates close by computation. *)
Ltac core_trivial := simpl; repeat split.

Lemma same_core_refl (s : QuizSession) : same_core s s.
Proof. by repeat split. Qed.

Lemma same_core_trans (s1 s2 s3 : QuizSession) :
  same_core s1 s2 -> same_core s2 s3 -> same_core s1 s3.
Proof. intros (A1 & B1 & C1) (A2 & B2 & C2). repeat split; congruence. Qed.

Lemma same_core_players (s : QuizSession) ps : same_core s (set_players s ps).
Proof. by repeat split. Qed.

Lemma same_core_connections (s : QuizSession) cs : same_core s (set_connections s cs).
Proof. by repeat split. Qed.

Lemma same_core_logs (s : QuizSession) l t : same_core s (set_logs s l t).
Proof. by repeat split. Qed.

Lemma same_core_add (s : QuizSession) pid ws : same_core s (snd (add_player s pid ws)).
Proof. unfold add_player. destruct (existsb _ _); simpl; core_trivial. Qed.

Lemma same_core_remove (s : QuizSession) pid : same_core s (remove_player s pid).
Proof. by repeat split. Qed.

Lemma same_core_broadcast (s : QuizSession) ok : same_core s (snd (broadcast s ok)).
Proof. unfold broadcast. destruct (send_all _ _). simpl. core_trivial. Qed.

Lemma same_core_close (s : QuizSession) : same_core s (close_question_scoring s).
Proof. unfold close_question_scoring. destruct (get_current_question s); core_trivial. Qed.

Lemma same_core_record (s : QuizSession) pid a e : same_core s (snd (record_answer s pid a e)).
Proof.
  unfold record_answer.
  destruct (players s !! pid); [| core_trivial].
  destruct (get_current_question s); [| core_trivial].
  destruct (setdefault (answer_log s) _ ∅).
  destruct (setdefault (answer_time_log s) _ ∅).
  destruct (_ || _); simpl; [core_trivial | by repeat split].
Qed.

Lemma same_core_inbound (s : QuizSession) pid ty now ts :
  same_core s (inbound_liveness s pid ty now ts).
Proof.
  unfold inbound_liveness, touch_inbound, handle_pong.
  destruct (players s !! pid); case_decide; simpl;
    try destruct (_ !! pid); simpl; by repeat split.
Qed.

Lemma same_core_ping (s : QuizSession) now ok : same_core s (ping_sweep s now ok).
Proof.
  unfold ping_sweep. simpl.
  assert (forall l s0, same_core s s0 ->
            same_core s (foldl (fun s2 pid => snd (broadcast (remove_player s2 pid) ok)) s0 l))
    as Hf.
  { induction l as [| pid l IH]; intros s0 H0; simpl; [done |].
    apply IH. eapply same_core_trans; [exact H0 |].
    eapply same_core_trans; [apply same_core_remove | apply same_core_broadcast]. }
  apply Hf. apply same_core_players.
Qed.

Lemma same_core_kick (s : QuizSession) kid : same_core s (kick_player s kid).
Proof. unfold kick_player. destruct (bool_decide _); [apply same_core_remove | core_trivial]. Qed.

Lemma same_core_disconnect (s : QuizSession) pid :
  same_core s (handle_student_disconnect s pid).
Proof. by repeat split. Qed.

Lemma same_core_question_end (s : QuizSession) : same_core s (handle_question_end s).
Proof. unfold handle_question_end. destruct (get_current_question s); [apply same_core_close | core_trivial]. Qed.

Lemma same_core_inv (s s' : QuizSession) :
  same_core s s' -> active_in_range s -> active_in_range s'.
Proof.
  intros (Hs & Hq & Hi) H Hact. rewrite Hs in Hact.
  destruct (H Hact) as (qz & Hqz & Hlt). exists qz. split; congruence.
Qed.

Lemma next_question_inv (s : QuizSession) :
  active_in_range s -> active_in_range (snd (next_question s)).
Proof.
  intros H. unfold next_question.
  destruct (quiz s) as [qz |] eqn:Hq; [| exact H].
  case_decide; simpl; [discriminate |].
  intros Hact. exists qz. simpl. split; [done | lia].
Qed.

Lemma next_question_mono (s : QuizSession) :
  current_question_idx s <= current_question_idx (snd (next_question s)).
Proof.
  unfold next_question. destruct (quiz s); simpl; [| lia].
  case_decide; simpl; lia.
Qed.

Lemma handle_quiz_start_inv (s : QuizSession) :
  active_in_range s -> active_in_range (handle_quiz_start s).
Proof.
  intros H. unfold handle_quiz_start, start_quiz.
  destruct (quiz s) as [qz |] eqn:Hq; [| exact H].
  destruct (questions qz) eqn:Hqs; [exact H |]. simpl.
  unfold next_question. simpl. rewrite Hq.
  case_decide; simpl; [discriminate |].
  intros _. exists qz. simpl. split; [done | lia].
Qed.

Lemma handle_quiz_start_mono (s : QuizSession) :
  current_question_idx s <= current_question_idx (handle_quiz_start s).
Proof.
  unfold handle_quiz_start, start_quiz.
  destruct (quiz s) as [qz |]; [| lia].
  destruct (questions qz); simpl; [lia |].
  apply (next_question_mono (set_state s ACTIVE)).
Qed.

Lemma run_handler_inv (s : QuizSession) (m : HandlerMsg) :
  active_in_range s -> active_in_range (run_handler s m).
Proof.
  intros H. destruct m; simpl.
  - eapply same_core_inv; [apply same_core_add | exact H].
  - intros Hact. discriminate.
  - by apply handle_quiz_start_inv.
  - by apply next_question_inv.
  - eapply same_core_inv; [apply same_core_question_end | exact H].
  - eapply same_core_inv; [apply same_core_kick | exact H].
  - intros Hact. discriminate.
  - eapply same_core_inv; [apply same_core_record | exact H].
  - eapply same_core_inv; [apply same_core_broadcast | exact H].
  - eapply same_core_inv; [apply same_core_inbound | exact H].
  - eapply same_core_inv; [apply same_core_ping | exact H].
  - eapply same_core_inv; [apply same_core_disconnect | exact H].
Qed.

Lemma run_handler_mono (s : QuizSession) (m : HandlerMsg) :
  is_handler_load m = false ->
  current_question_idx s <= current_question_idx (run_handler s m).
Proof.
  intros Hm. destruct m; simpl in Hm |- *; try discriminate.
  - destruct (same_core_add s pid ws) as (_ & _ & ->). lia.
  - apply handle_quiz_start_mono.
  - apply next_question_mono.
  - destruct (same_core_question_end s) as (_ & _ & ->). lia.
  - destruct (same_core_kick s kid) as (_ & _ & ->). lia.
  - lia.
  - destruct (same_core_record s pid a e) as (_ & _ & ->). lia.
  - destruct (same_core_broadcast s send_ok) as (_ & _ & ->). lia.
  - destruct (same_core_inbound s pid msg_type now ts) as (_ & _ & ->). lia.
  - destruct (same_core_ping s now send_ok) as (_ & _ & ->). lia.
  - lia.
Qed.

Lemma run_session_op_mono (s : QuizSession) (o : SessionOp) :
  is_session_load o = false ->
  current_question_idx s <= current_question_idx (run_session_op s o).
Proof.
  intros Ho. destruct o; simpl in Ho |- *; try discriminate.
  - destruct (same_core_add s pid ws) as (_ & _ & ->). lia.
  - lia.
  - unfold start_quiz. destruct (quiz s) as [qz |]; simpl; [| lia].
    destruct (questions qz); simpl; lia.
  - apply next_question_mono.
  - destruct (same_core_close s) as (_ & _ & ->). lia.
  - destruct (same_core_record s pid a e) as (_ & _ & ->). lia.
  - lia.
Qed.

Lemma new_session_inv (id host : string) (pw : option string) :
  active_in_range (new_session id host pw).
Proof. intros H. discriminate. Qed.

Lemma run_handlers_inv (s : QuizSession) (ms : list HandlerMsg) :
  active_in_range s -> active_in_range (run_handlers s ms).
Proof.
  revert s. induction ms as [| m ms IH]; intros s H; simpl; [done |].
  apply IH. by apply run_handler_inv.
Qed.

(** C5 (corrected): [current_question_idx] never decreases under any
    [QuizSession] method other than [load_quiz] ([start_quiz] included) nor
    under any server handler other than [quiz.load]; and in every session
    reached through the server's handlers, where [quiz.start] always runs
    [next_question] right after a successful [start_quiz], ACTIVE implies a
    loaded quiz with [current_question_idx < len(quiz.questions)]. *)
Theorem question_index_invariant :
  (forall (s : QuizSession) (o : SessionOp), is_session_load o = false ->
     current_question_idx s <= current_question_idx (run_session_op s o)) /\
  (forall (s : QuizSession) (m : HandlerMsg), is_handler_load m = false ->
     current_question_idx s <= current_question_idx (run_handler s m)) /\
  (forall (id host : string) (pw : option string) (ms : list HandlerMsg),
     state (run_handlers (new_session id host pw) ms) = ACTIVE ->
     exists qz, quiz (run_handlers (new_session id host pw) ms) = Some qz /\
       current_question_idx (run_handlers (new_session id host pw) ms) <
         Z.of_nat (length (questions qz))).
Proof.
  split; [exact run_session_op_mono |]. split; [exact run_handler_mono |].
  intros id host pw ms. apply run_handlers_inv, new_session_inv.
Qed.

Lemma question_index_invariant_witness :
  is_session_load OStart = false /\
  current_question_idx demo_started <= current_question_idx (run_session_op demo_started OStart) /\
  state demo_started = ACTIVE /\
  exists qz, quiz demo_started = Some qz /\
    current_question_idx demo_started < Z.of_nat (length (questions qz)).
Proof.
  destruct question_index_invariant as (Hs & _ & Hr).
  split; [reflexivity |]. split; [apply Hs; reflexivity |].
  assert (state demo_started = ACTIVE) as Hact by (vm_compute; reflexivity).
  split; [exact Hact |].
  exact (Hr "demo" "h1" None [MJoin "h1" 0%nat; MLoad quiz1; MJoin "s1" 1%nat; MStart] Hact).
Defined.

(** C5 counterexample: through the [QuizSession] methods, [start_quiz]
    called after the last question has been passed (state FINISHED, index
    1 for a one-question quiz) sets ACTIVE with the index equal to
    [len(quiz.questions)]. *)
Lemma question_index_invariant_counterexample :
  state restarted_after_finish = ACTIVE /\
  quiz restarted_after_finish = Some quiz1 /\
  current_question_idx restarted_after_finish = 1 /\
  length (questions quiz1) = 1%nat /\
  ~ active_in_range restarted_after_finish.
Proof.
  assert (state restarted_after_finish = ACTIVE) as Hs by (vm_compute; reflexivity).
  assert (quiz restarted_after_finish = Some quiz1) as Hq by (vm_compute; reflexivity).
  assert (current_question_idx restarted_after_finish = 1) as Hi by (vm_compute; reflexivity).
  split; [exact Hs |]. split; [exact Hq |]. split; [exact Hi |]. split; [reflexivity |].
  intros H. destruct (H Hs) as (qz & Hqz & Hlt).
  rewrite Hq in Hqz. injection Hqz as <-. rewrite Hi in Hlt. simpl in Hlt. lia.
Qed.

(** ** Kick and re-join *)

Lemma add_player_accepts (s : QuizSession) (pid : string) (ws : WebSocket) :
  (forall k p, players s !! k = Some p -> player_id p <> pid) ->
  add_player s pid ws =
    (Some (new_player pid),
     set_connections (set_players s (<[pid:=new_player pid]> (players s)))
                     (<[pid:=ws]> (connections s))).
Proof.
  intros H. destruct (add_player s pid ws) as [r s'] eqn:E.
  pose proof (add_player_rejects_iff s pid ws) as Hiff. rewrite E in Hiff. simpl in Hiff.
  unfold add_player in E |- *.
  destruct (existsb _ _) eqn:Ex; [| done].
  injection E as <- <-.
  destruct (proj1 Hiff eq_refl) as (k & p & Hk & Hid). exfalso. exact (H k p Hk Hid).
Qed.

(** C6 (corrected): there is no kicked set.  [player.kick] for a player
    with a registered connection removes the player and the connection
    (a kick of an id without connection changes nothing), and
    [add_player] rejects an id exactly when a player record with that id is
    in the session; so the kicked id is accepted again on re-join. *)
Theorem kick_then_rejoin :
  (forall (s : QuizSession) (pid : string) (ws : WebSocket),
     fst (add_player s pid ws) = None <->
     exists k p, players s !! k = Some p /\ player_id p = pid) /\
  (forall (s : QuizSession) (kid : string),
     connections s !! kid = None -> kick_player s kid = s) /\
  (forall (s : QuizSession) (kid : string) (ws : WebSocket),
     keys_consistent s -> is_Some (connections s !! kid) ->
     players (kick_player s kid) !! kid = None /\
     connections (kick_player s kid) !! kid = None /\
     fst (add_player (kick_player s kid) kid ws) = Some (new_player kid)).
Proof.
  split; [exact add_player_rejects_iff |]. split.
  - intros s kid H. unfold kick_player. by rewrite H.
  - intros s kid ws Hk Hc. unfold kick_player.
    rewrite bool_decide_eq_true_2 by exact Hc. simpl.
    split; [apply lookup_delete_eq |]. split; [apply lookup_delete_eq |].
    rewrite add_player_accepts; [done |].
    intros k p Hp. simpl in Hp.
    destruct (decide (k = kid)) as [-> | Hne].
    + by rewrite lookup_delete_eq in Hp.
    + rewrite lookup_delete_ne in Hp by congruence.
      rewrite (Hk k p Hp). exact Hne.
Qed.

Lemma kick_then_rejoin_witness :
  keys_consistent demo_started /\ is_Some (connections demo_started !! "s1") /\
  fst (add_player (kick_player demo_started "s1") "s1" 9%nat) = Some (new_player "s1").
Proof.
  assert (keys_consistent demo_started) as Hk.
  { unfold keys_consistent. apply (bool_decide_unpack _). vm_compute. reflexivity. }
  assert (is_Some (connections demo_started !! "s1")) as Hc by (vm_compute; eauto).
  split; [exact Hk |]. split; [exact Hc |].
  apply (proj2 (proj2 kick_then_rejoin) demo_started "s1" 9%nat Hk Hc).
Defined.

(** C6 counterexample: after the host kicks [s1], [s1] joining again under
    the same id is accepted. *)
Lemma kick_then_rejoin_counterexample :
  players demo_started !! "s1" = Some (new_player "s1") /\
  players demo_kicked !! "s1" = None /\
  fst (add_player demo_kicked "s1" 9%nat) = Some (new_player "s1").
Proof. split; [| split]; vm_compute; reflexivity. Qed.

(** ** Liveness *)

Lemma inbound_liveness_status (s : QuizSession) (pid : string) (ty : string)
    (now : Q) (ts : option Q) (k : string) :
  status <$> players (inbound_liveness s pid ty now ts) !! k = status <$> players s !! k.
Proof.
  unfold inbound_liveness, touch_inbound, handle_pong.
  destruct (players s !! pid) as [p |] eqn:Hp; simpl.
  - case_decide; simpl.
    + rewrite lookup_insert_eq. simpl.
      destruct (decide (pid = k)) as [-> | Hne].
      * rewrite lookup_insert_eq, Hp. done.
      * rewrite !lookup_insert_ne by done. done.
    + destruct (decide (pid = k)) as [-> | Hne].
      * rewrite lookup_insert_eq, Hp. done.
      * rewrite !lookup_insert_ne by done. done.
  - case_decide; simpl; [rewrite Hp |]; done.
Qed.

(** C7 (code bug): no inbound message changes a player's [status]; a
    player marked "stale" by [ping_loop] who then sends a (late) [pong]
    gets [last_seen] refreshed but stays "stale". *)
Theorem stale_player_stays_stale :
  (forall (s : QuizSession) (pid ty : string) (now : Q) (ts : option Q) (k : string),
     status <$> players (inbound_liveness s pid ty now ts) !! k = status <$> players s !! k) /\
  status <$> players demo_stale !! "s1" = Some "stale" /\
  last_seen <$> players demo_late_pong !! "s1" = Some (Some 110%Q) /\
  status <$> players demo_late_pong !! "s1" = Some "stale".
Proof.
  split; [exact inbound_liveness_status |].
  split; [vm_compute; reflexivity |]. split; vm_compute; reflexivity.
Qed.

(** ** Broadcast *)

Lemma send_all_spec (ok : WebSocket -> bool) (l : list (string * WebSocket)) (pid : string) :
  (pid ∈ (send_all ok l).1 <-> exists ws, (pid, ws) ∈ l /\ ok ws = true) /\
  (pid ∈ (send_all ok l).2 <-> exists ws, (pid, ws) ∈ l /\ ok ws = false).
Proof.
  induction l as [| [k ws] l IH]; simpl.
  - split; split; [set_solver | intros (? & H & _); set_solver | set_solver
                  | intros (? & H & _); set_solver].
  - destruct (send_all ok l) as [oks dead] eqn:E. simpl in IH |- *.
    destruct IH as [IH1 IH2].
    destruct (ok ws) eqn:Hok; simpl; split; split.
    + rewrite elem_of_cons. intros [-> | H].
      * exists ws. split; [left | done].
      * destruct (proj1 IH1 H) as (w & Hw & Hw'). exists w. split; [by right | done].
    + intros (w & Hw & Hw'). rewrite elem_of_cons.
      apply elem_of_cons in Hw as [Heq | Hw]; [left; congruence | right; apply IH1; eauto].
    + intros H. destruct (proj1 IH2 H) as (w & Hw & Hw'). exists w. split; [by right | done].
    + intros (w & Hw & Hw'). apply IH2.
      apply elem_of_cons in Hw as [Heq | Hw]; [injection Heq as -> ->; congruence | eauto].
    + intros H. destruct (proj1 IH1 H) as (w & Hw & Hw'). exists w. split; [by right | done].
    + intros (w & Hw & Hw'). apply IH1.
      apply elem_of_cons in Hw as [Heq | Hw]; [injection Heq as -> ->; congruence | eauto].
    + rewrite elem_of_cons. intros [-> | H].
      * exists ws. split; [left | done].
      * destruct (proj1 IH2 H) as (w & Hw & Hw'). exists w. split; [by right | done].
    + intros (w & Hw & Hw'). rewrite elem_of_cons.
      apply elem_of_cons in Hw as [Heq | Hw]; [left; congruence | right; apply IH2; eauto].
Qed.

Lemma foldl_delete_lookup (cs : gmap string WebSocket) (dead : list string) (k : string) :
  foldl (fun cs pid => delete pid cs) cs dead !! k =
    if decide (k ∈ dead) then None else cs !! k.
Proof.
  revert cs. induction dead as [| d dead IH]; intros cs; cbn [foldl].
  - rewrite decide_False by set_solver. done.
  - rewrite IH. destruct (decide (k ∈ dead)) as [Hin | Hnin].
    + rewrite decide_True by set_solver. done.
    + destruct (decide (k = d)) as [-> | Hne].
      * rewrite decide_True by set_solver. apply lookup_delete_eq.
      * rewrite decide_False by set_solver. by apply lookup_delete_ne.
Qed.

(** C8 (corrected): [broadcast] tries every registered connection; a
    failing send never escapes the loop: that connection alone is removed
    from [connections] while every other connection is still sent to and
    kept.  The player record of a failed connection stays in [players]
    (unlike a clean disconnect, which calls [remove_player]); state, quiz
    and index are unchanged. *)
Theorem broadcast_best_effort (s : QuizSession) (ok : WebSocket -> bool) :
  players (broadcast s ok).2 = players s /\
  same_core s (broadcast s ok).2 /\
  (forall (pid : string) (ws : WebSocket), connections s !! pid = Some ws ->
     (ok ws = true -> pid ∈ (broadcast s ok).1 /\ connections (broadcast s ok).2 !! pid = Some ws) /\
     (ok ws = false -> (pid ∉ (broadcast s ok).1) /\ connections (broadcast s ok).2 !! pid = None)) /\
  (forall pid : string, connections s !! pid = None -> connections (broadcast s ok).2 !! pid = None).
Proof.
  pose proof (same_core_broadcast s ok) as Hcore.
  unfold broadcast in *.
  pose proof (fun pid => send_all_spec ok (map_to_list (connections s)) pid) as Hspec.
  destruct (send_all ok (map_to_list (connections s))) as [oks dead] eqn:E.
  simpl in *. split; [done |]. split; [done |]. split.
  - intros pid ws Hws.
    destruct (Hspec pid) as [Hok Hdead].
    assert (forall w, (pid, w) ∈ map_to_list (connections s) -> w = ws) as Huniq.
    { intros w Hw. apply elem_of_map_to_list in Hw. congruence. }
    assert ((pid, ws) ∈ map_to_list (connections s)) as Hin by by apply elem_of_map_to_list.
    split; intros Hs.
    + split; [apply Hok; eauto |].
      rewrite foldl_delete_lookup. rewrite decide_False; [done |].
      intros Hd. destruct (proj1 Hdead Hd) as (w & Hw & Hw').
      rewrite (Huniq w Hw) in Hw'. congruence.
    + split.
      * intros Ho. destruct (proj1 Hok Ho) as (w & Hw & Hw').
        rewrite (Huniq w Hw) in Hw'. congruence.
      * rewrite foldl_delete_lookup. rewrite decide_True; [done |].
        apply Hdead. eauto.
  - intros pid Hnone. rewrite foldl_delete_lookup. by case_decide.
Qed.

Lemma broadcast_best_effort_witness :
  connections demo_started !! "s1" = Some 1%nat /\
  negb (Nat.eqb 1 1) = false /\
  connections (broadcast demo_started (fun ws => negb (Nat.eqb ws 1))).2 !! "s1" = None.
Proof.
  assert (connections demo_started !! "s1" = Some 1%nat) as Hc by (vm_compute; reflexivity).
  split; [exact Hc |]. split; [reflexivity |].
  destruct (broadcast_best_effort demo_started (fun ws => negb (Nat.eqb ws 1)))
    as (_ & _ & Hconn & _).
  apply (proj2 (Hconn "s1" 1%nat Hc) eq_refl).
Defined.

(** C8 counterexample: the send to [s1] fails; [s1]'s connection is gone
    but [s1] is still a player of the session, whereas a clean disconnect
    of [s1] removes the player. *)
Lemma broadcast_best_effort_counterexample :
  connections demo_send_fails !! "s1" = None /\
  players demo_send_fails !! "s1" = Some (new_player "s1") /\
  players (handle_student_disconnect demo_started "s1") !! "s1" = None.
Proof. split; [| split]; vm_compute; reflexivity. Qed.

(** ** Loading a quiz *)

(** C9 (code bug): [load_quiz] resets the index to -1, clears the answer
    log, returns to LOBBY and resets [score] and [answered_current] of every
    player, but keeps each player's [round_scores]: after scoring question 0
    and reloading, [s1] has score 0 and still [round_scores = [1]]. *)
Theorem load_quiz_keeps_round_scores :
  (forall (s : QuizSession) (qz : Quiz),
     current_question_idx (load_quiz s qz) = -1 /\
     answer_log (load_quiz s qz) = ∅ /\
     state (load_quiz s qz) = LOBBY /\
     quiz (load_quiz s qz) = Some qz /\
     forall k : string,
       (fun p => (score p, answered_current p, round_scores p)) <$> players (load_quiz s qz) !! k =
       (fun p => (0, false, round_scores p)) <$> players s !! k) /\
  from_option round_scores [] (players demo_scored !! "s1") = [1] /\
  from_option score 0 (players demo_reloaded !! "s1") = 0 /\
  from_option round_scores [] (players demo_reloaded !! "s1") = [1].
Proof.
  split.
  - intros s qz. simpl. repeat split. intros k.
    rewrite lookup_fmap. by destruct (players s !! k).
  - split; [| split]; vm_compute; reflexivity.
Qed.

(** ** Player records are stored under their own id

    The hypothesis [keys_consistent] of [add_player_reject_atomic] holds in
    every session the server handlers can reach. *)

Lemma keys_consistent_insert (ps : gmap string Player) (pid : string) (p : Player) :
  map_Forall (fun k p => player_id p = k) ps -> player_id p = pid ->
  map_Forall (fun k p => player_id p = k) (<[pid:=p]> ps).
Proof. intros H Hp. by apply map_Forall_insert_2. Qed.

Lemma keys_consistent_update (ps : gmap string Player) (f : Player -> Player) :
  (forall p, player_id (f p) = player_id p) ->
  map_Forall (fun k p => player_id p = k) ps ->
  map_Forall (fun k p => player_id p = k) (f <$> ps).
Proof.
  intros Hf H k p Hk. rewrite lookup_fmap in Hk.
  destruct (ps !! k) as [p0 |] eqn:E; simplify_eq/=. rewrite Hf. exact (H k p0 E).
Qed.

Lemma keys_consistent_alter (ps : gmap string Player) (f : Player -> Player) (pid : string) :
  (forall p, player_id (f p) = player_id p) ->
  map_Forall (fun k p => player_id p = k) ps ->
  map_Forall (fun k p => player_id p = k) (alter f pid ps).
Proof.
  intros Hf H k p Hk. rewrite lookup_alter in Hk.
  destruct (decide (pid = k)) as [-> | Hne].
  - destruct (ps !! k) as [p0 |] eqn:E; simplify_eq/=. rewrite Hf. exact (H k p0 E).
  - exact (H k p Hk).
Qed.

Lemma keys_consistent_remove (s : QuizSession) (pid : string) :
  keys_consistent s -> keys_consistent (remove_player s pid).
Proof. intros H. by apply map_Forall_delete. Qed.

Lemma keys_consistent_broadcast (s : QuizSession) (ok : WebSocket -> bool) :
  keys_consistent s -> keys_consistent (broadcast s ok).2.
Proof.
  unfold keys_consistent. by rewrite (proj1 (broadcast_best_effort s ok)).
Qed.

Lemma keys_consistent_record (s : QuizSession) (pid : string) (a : Z) (e : option Q) :
  keys_consistent s -> keys_consistent (record_answer s pid a e).2.
Proof.
  intros H.
  destruct (players s !! pid) as [p |] eqn:Hp;
    [| by rewrite (record_answer_unknown s pid a e Hp)].
  destruct (get_current_question s) as [q |] eqn:Hq;
    [| by rewrite (record_answer_no_question s pid a e Hq)].
  destruct (answered_current p) eqn:Hans;
    [| destruct (from_option id ∅ (answer_log s !! current_question_idx s) !! pid) eqn:Hin].
  - by rewrite (record_answer_rejected s pid p q a e Hp Hq (or_introl Hans)).
  - rewrite (record_answer_rejected s pid p q a e Hp Hq); [done |]. right. rewrite Hin. eauto.
  - destruct (record_answer_accepted s pid p q a e Hp Hq Hans Hin)
      as (s' & Hrec & _ & Hpl & _). rewrite Hrec. unfold keys_consistent. simpl. rewrite Hpl.
    apply keys_consistent_insert; [exact H |].
    rewrite <- (H pid p Hp). by destruct (bool_decide _).
Qed.

Lemma keys_consistent_run_handler (s : QuizSession) (m : HandlerMsg) :
  keys_consistent s -> keys_consistent (run_handler s m).
Proof.
  intros H. destruct m; simpl.
  - unfold add_player. destruct (existsb _ _); [done |].
    by apply keys_consistent_insert.
  - apply keys_consistent_update; [done | exact H].
  - unfold handle_quiz_start, start_quiz.
    destruct (quiz s) as [qz |]; [| done]. destruct (questions qz); [done |].
    unfold next_question. simpl. destruct (quiz s); [| done]. simpl.
    case_decide; [done |]. apply keys_consistent_update; [done | exact H].
  - unfold next_question. destruct (quiz s); [| done]. simpl.
    case_decide; [done |]. apply keys_consistent_update; [done | exact H].
  - unfold handle_question_end, close_question_scoring.
    destruct (get_current_question s) as [q |] eqn:Hq; [| done].
    intros k p Hk. simpl in Hk. rewrite map_lookup_imap in Hk.
    destruct (players s !! k) as [p0 |] eqn:E; simplify_eq/=. exact (H k p0 E).
  - unfold kick_player. destruct (bool_decide _); [by apply keys_consistent_remove | done].
  - done.
  - by apply keys_consistent_record.
  - by apply keys_consistent_broadcast.
  - unfold inbound_liveness, touch_inbound, handle_pong.
    destruct (players s !! pid) as [p |] eqn:Hp.
    + assert (keys_consistent (set_players s (<[pid:=set_last_seen p now]> (players s)))) as H1.
      { apply keys_consistent_insert; [exact H | exact (H pid p Hp)]. }
      case_decide; [| exact H1]. simpl. rewrite lookup_insert_eq.
      apply keys_consistent_insert; [exact H1 | exact (H pid p Hp)].
    + case_decide; [rewrite Hp |]; done.
  - unfold ping_sweep. simpl.
    assert (forall l s0, keys_consistent s0 ->
              keys_consistent (foldl (fun s2 pid => snd (broadcast (remove_player s2 pid) send_ok)) s0 l))
      as Hf.
    { induction l as [| pid l IH]; intros s0 H0; simpl; [done |].
      apply IH. apply keys_consistent_broadcast, keys_consistent_remove, H0. }
    apply Hf. unfold keys_consistent. simpl.
    assert (forall (l : list string) (ps : gmap string Player),
              map_Forall (fun k p => player_id p = k) ps ->
              map_Forall (fun k p => player_id p = k)
                (foldl (fun m pid => alter (fun p => set_status p "stale") pid m) ps l)) as Ha.
    { induction l as [| pid l IH]; intros ps Hps; simpl; [done |].
      apply IH, keys_consistent_alter; [done | exact Hps]. }
    apply Ha, H.
  - apply keys_consistent_remove. exact H.
Qed.

Lemma keys_consistent_reachable (id host : string) (pw : option string) (ms : list HandlerMsg) :
  keys_consistent (run_handlers (new_session id host pw) ms).
Proof.
  assert (forall s, keys_consistent s -> keys_consistent (run_handlers s ms)) as Hs.
  { induction ms as [| m ms IH]; intros s H; simpl; [done |].
    apply IH, keys_consistent_run_handler, H. }
  apply Hs. intros k p Hk. done.
Qed.

(** * Further properties of the code *)

(** ** JSON codecs *)

Lemma mapM_as_str (l : list string) : mapM as_str (map JStr l) = Some l.
Proof. induction l as [| x l IH]; simpl; [done | by rewrite IH]. Qed.

Lemma Question_from_to_dict (fresh : string) (q : Question) :
  Question_from_dict fresh (Question_to_dict q) = Some q.
Proof.
  destruct q as [p o c i]. unfold Question_from_dict, Question_to_dict. simpl.
  by rewrite mapM_as_str.
Qed.

(** [Question.from_dict(q.to_dict()) == q] for any question; a dict
    without "id" gets the generated id; a dict missing "prompt", "options"
    or "correct_idx" is refused ([KeyError]). *)
Theorem Question_dict_roundtrip (fresh : string) :
  (forall q : Question, Question_from_dict fresh (Question_to_dict q) = Some q) /\
  (forall p o c, Question_from_dict fresh
       (JObj [("prompt", JStr p); ("options", JList (map JStr o)); ("correct_idx", JInt c)])
     = Some (mkQuestion p o c fresh)) /\
  (forall kvs, dget kvs "prompt" = None \/ dget kvs "options" = None \/
               dget kvs "correct_idx" = None ->
     Question_from_dict fresh (JObj kvs) = None).
Proof.
  split; [| split].
  - apply Question_from_to_dict.
  - intros p o c. unfold Question_from_dict. simpl. by rewrite mapM_as_str.
  - intros kvs H. unfold Question_from_dict.
    destruct (match dget kvs "id" with Some v => as_str v | None => Some fresh end);
      simpl; [| done].
    destruct H as [H | [H | H]]; rewrite H; simpl; [done |..].
    + destruct (dget kvs "prompt" ≫= as_str); simpl; done.
    + destruct (dget kvs "prompt" ≫= as_str); simpl; [| done].
      destruct (dget kvs "options" ≫= as_str_list); simpl; done.
Qed.

Lemma mapM_questions (qf : nat -> string) (l : list Question) (k : nat) :
  mapM (fun '(n, v) => Question_from_dict (qf n) v)
       (zip (seq k (length l)) (map Question_to_dict l)) = Some l.
Proof.
  revert k. induction l as [| q l IH]; intros k; [done |].
  cbn [length seq map zip mapM]. rewrite Question_from_to_dict. simpl.
  rewrite (IH (S k)). done.
Qed.

(** [Quiz.from_dict(quiz.to_dict()) == quiz]: the saved form of a quiz
    (what [Quiz.save] writes and [Quiz.load] reads back) decodes to the same
    quiz, every question included. *)
Theorem Quiz_dict_roundtrip (zfresh : string) (qfresh : nat -> string) (z : Quiz) :
  Quiz_from_dict zfresh qfresh (Quiz_to_dict z) = Some z.
Proof.
  destruct z as [t qs i]. unfold Quiz_from_dict, Quiz_to_dict. simpl.
  rewrite length_map, mapM_questions. done.
Qed.

(** [StudentQuestion.from_dict(sq.to_dict()) == sq]: what the client
    decodes is exactly what the server encoded, timer [None] included. *)
Theorem StudentQuestion_dict_roundtrip (sq : StudentQuestion) :
  StudentQuestion_from_dict (StudentQuestion_to_dict sq) = Some sq.
Proof.
  destruct sq as [i p o idx tot [tm |]];
    unfold StudentQuestion_from_dict, StudentQuestion_to_dict; simpl;
    rewrite mapM_as_str; done.
Qed.

(** The [question] payload of [question.next] carries no "correct_idx"
    key, and decodes to the question's id, prompt and options with the
    session's current index, the number of questions and a timer of 10. *)
Theorem question_next_payload_hides_answer (s : QuizSession) (q : Question) :
  exists kvs, question_next_payload s q = JObj kvs /\
    dget kvs "correct_idx" = None /\
    StudentQuestion_from_dict (JObj kvs) =
      Some (mkStudentQuestion (qid q) (prompt q) (options q) (current_question_idx s)
              (Z.of_nat (length (from_option questions [] (quiz s)))) (Some 10)).
Proof.
  eexists. split; [reflexivity |]. split; [reflexivity |].
  unfold StudentQuestion_from_dict. simpl. rewrite mapM_as_str. done.
Qed.

(** ** Session registry *)

(** [create_session] with an id already registered raises and leaves the
    registry as it was; with a new id it registers a fresh LOBBY session
    under that id and touches no other entry; without an id it registers
    under the generated token with no collision check, replacing a session
    already stored there; [delete_session] removes exactly that id and is a
    no-op for an unknown one. *)
Theorem session_registry (reg : Registry) (host id tok : string) (pw : option string) :
  (is_Some (reg !! id) -> create_session reg host (Some id) pw tok = None) /\
  (reg !! id = None ->
     exists s reg', create_session reg host (Some id) pw tok = Some (s, reg') /\
       get_session reg' id = Some s /\ sid s = id /\ state s = LOBBY /\
       password s = pw /\ players s = ∅ /\
       forall k, k <> id -> get_session reg' k = get_session reg k) /\
  (exists s reg', create_session reg host None pw tok = Some (s, reg') /\
       sid s = tok /\ get_session reg' tok = Some s) /\
  get_session (delete_session reg id) id = None /\
  (forall k, k <> id -> get_session (delete_session reg id) k = get_session reg k) /\
  (reg !! id = None -> delete_session reg id = reg).
Proof.
  unfold create_session, get_session, delete_session.
  split; [| split; [| split; [| split; [| split]]]].
  - intros H. by rewrite bool_decide_eq_true_2.
  - intros H. rewrite bool_decide_eq_false_2 by (rewrite H; apply is_Some_None).
    do 2 eexists. split; [reflexivity |].
    split; [by rewrite lookup_insert_eq |]. do 4 (split; [done |]).
    intros k Hk. by rewrite lookup_insert_ne by congruence.
  - do 2 eexists. split; [reflexivity |]. split; [done |].
    by rewrite lookup_insert_eq.
  - apply lookup_delete_eq.
  - intros k Hk. by rewrite lookup_delete_ne by congruence.
  - apply delete_id.
Qed.

(** ** Password gate *)





(** A session whose password is [None] or [""] lets every join through:
    the attempt counter is never consulted. *)
Theorem join_without_password (a : Z) (pws : list (option string)) :
  join_attempts a None pws = map (fun _ => PwPass) pws /\
  join_attempts a (Some "") pws = map (fun _ => PwPass) pws.
Proof.
  split; induction pws as [| pw pws IH]; simpl; by rewrite ?IH.
Qed.

(** ** Leaderboard *)

Lemma insert_by_score_perm (p : Player) (l : list Player) :
  Permutation (insert_by_score p l) (p :: l).
Proof.
  induction l as [| x r IH]; simpl; [done |].
  destruct (score x <? score p); [done |].
  etrans; [apply perm_skip, IH | apply perm_swap].
Qed.

Lemma insert_by_score_hd (x p : Player) (l : list Player) :
  HdRel score_ge x l -> score_ge x p -> HdRel score_ge x (insert_by_score p l).
Proof.
  intros Hh Hxp. destruct l as [| y r]; simpl; [by constructor |].
  destruct (score y <? score p); constructor; [done |]. by inversion Hh.
Qed.

Lemma insert_by_score_sorted (p : Player) (l : list Player) :
  Sorted score_ge l -> Sorted score_ge (insert_by_score p l).
Proof.
  induction l as [| x r IH]; intros Hs; simpl; [by repeat constructor |].
  inversion Hs as [| ? ? Hr Hh]; subst.
  destruct (Z.ltb_spec (score x) (score p)).
  - constructor; [done |]. constructor. unfold score_ge. lia.
  - constructor; [by apply IH |]. apply insert_by_score_hd; [done |].
    unfold score_ge. lia.
Qed.

Lemma sorted_head_ge (x : Player) (r : list Player) :
  Sorted score_ge (x :: r) -> Forall (score_ge x) r.
Proof.
  intros Hs. apply Sorted_StronglySorted in Hs.
  - by inversion Hs.
  - intros a b c. unfold score_ge. lia.
Qed.

Lemma filter_none_below (z : Z) (l : list Player) :
  Forall (fun y => score y < z) l -> List.filter (score_is z) l = [].
Proof.
  induction 1 as [| y r Hy _ IH]; simpl; [done |].
  unfold score_is at 1. rewrite bool_decide_eq_false_2 by lia. done.
Qed.

Lemma insert_by_score_stable (z : Z) (p : Player) (l : list Player) :
  Sorted score_ge l ->
  List.filter (score_is z) (insert_by_score p l) =
  List.filter (score_is z) l ++ (if score_is z p then [p] else []).
Proof.
  induction l as [| x r IH]; intros Hs; [simpl; by destruct (score_is z p) |].
  cbn [insert_by_score]. destruct (Z.ltb_spec (score x) (score p)).
  - change (List.filter (score_is z) (p :: x :: r)) with
      (if score_is z p then p :: List.filter (score_is z) (x :: r)
       else List.filter (score_is z) (x :: r)).
    destruct (score_is z p) eqn:Hz.
    + unfold score_is in Hz. apply bool_decide_eq_true_1 in Hz.
      rewrite (filter_none_below z (x :: r)); [done |].
      constructor; [lia |].
      eapply Forall_impl; [apply sorted_head_ge, Hs |]. unfold score_ge. intros y. lia.
    + by rewrite app_nil_r.
  - inversion Hs; subst. simpl. rewrite IH by done.
    destruct (score_is z x); done.
Qed.

Lemma foldl_insert_props (acc ps : list Player) :
  Sorted score_ge acc ->
  let r := foldl (fun acc p => insert_by_score p acc) acc ps in
  Permutation r (acc ++ ps) /\ Sorted score_ge r /\
  forall z, List.filter (score_is z) r = List.filter (score_is z) acc ++ List.filter (score_is z) ps.
Proof.
  revert acc. induction ps as [| p ps IH]; intros acc Hs; simpl.
  - rewrite app_nil_r. repeat split; [done | done |]. intros z. by rewrite app_nil_r.
  - destruct (IH (insert_by_score p acc) (insert_by_score_sorted p acc Hs))
      as (Hp & Hs' & Hf).
    split; [| split; [done |]].
    + etrans; [apply Hp |]. rewrite <- Permutation_middle.
      change (p :: acc ++ ps) with ((p :: acc) ++ ps).
      apply Permutation_app_tail. apply insert_by_score_perm.
    + intros z. rewrite Hf, insert_by_score_stable by done.
      rewrite <- app_assoc. f_equal. by destruct (score_is z p).
Qed.

(** The leaderboard lists every player exactly once, by non-increasing
    score, and players of equal score keep their order in
    [session.players] (Python's sort is stable). *)
Theorem leaderboard_sorted (ps : list Player) :
  Permutation (sorted_by_score_desc ps) ps /\
  Sorted score_ge (sorted_by_score_desc ps) /\
  (forall z, List.filter (score_is z) (sorted_by_score_desc ps) = List.filter (score_is z) ps) /\
  Permutation (leaderboard ps) (map (fun p => (player_id p, score p)) ps).
Proof.
  destruct (foldl_insert_props [] ps (Sorted_nil _)) as (Hp & Hs & Hf).
  unfold leaderboard, sorted_by_score_desc. repeat split; [done | done | |].
  - intros z. by rewrite Hf.
  - by apply Permutation_map.
Qed.

(** ** Histogram of the current question *)

Lemma count_answer_lookup (c : list Z) (ans : Z) (i : nat) :
  count_answer c ans !! i =
    (fun x => if bool_decide (ans = Z.of_nat i) then x + 1 else x) <$> c !! i.
Proof.
  unfold count_answer. case_decide as Hr.
  - destruct (decide (Z.to_nat ans = i)) as [<- | Hne].
    + rewrite bool_decide_eq_true_2 by lia.
      destruct (lookup_lt_is_Some_2 c (Z.to_nat ans)) as [x Hx]; [lia |].
      rewrite list_lookup_insert_eq by lia. rewrite Hx. done.
    + rewrite list_lookup_insert_ne by done.
      rewrite bool_decide_eq_false_2 by lia. by destruct (c !! i).
  - destruct (c !! i) eqn:E; simpl; [| done].
    rewrite bool_decide_eq_false_2; [done |].
    apply lookup_lt_Some in E. lia.
Qed.

Lemma foldl_count_lookup (l : list (string * Z)) (c : list Z) (i : nat) :
  foldl (fun c kv => count_answer c kv.2) c l !! i =
    (fun x => x + Z.of_nat (count_eq (Z.of_nat i) l)) <$> c !! i.
Proof.
  revert c. induction l as [| kv l IH]; intros c; simpl.
  - unfold count_eq. destruct (c !! i); simpl; [f_equal; lia | done].
  - rewrite IH, count_answer_lookup. unfold count_eq. simpl.
    destruct (c !! i); simpl; [| done]. f_equal.
    destruct (bool_decide (kv.2 = Z.of_nat i)); simpl; lia.
Qed.

Lemma count_eq_perm (i : Z) (l l' : list (string * Z)) :
  Permutation l l' -> count_eq i l = count_eq i l'.
Proof.
  intros H. unfold count_eq. apply Permutation_length.
  induction H as [| x l l' _ IH | x y l | l l' l'' _ IH1 _ IH2]; simpl.
  - done.
  - destruct (bool_decide _); [by apply perm_skip | done].
  - destruct (bool_decide (x.2 = i)), (bool_decide (y.2 = i)); try done.
    apply perm_swap.
  - by etrans.
Qed.

Lemma count_eq_insert (i : Z) (b : gmap string Z) (pid : string) (a : Z) :
  b !! pid = None ->
  count_eq i (map_to_list (<[pid:=a]> b)) =
    ((if bool_decide (a = i) then 1 else 0) + count_eq i (map_to_list b))%nat.
Proof.
  intros H. rewrite (count_eq_perm i _ _ (map_to_list_insert b pid a H)).
  unfold count_eq. simpl. by destruct (bool_decide (a = i)).
Qed.

Lemma get_answer_counts_slot_gen (s : QuizSession) (oq : option Z) (i : nat) :
  (i < 4)%nat ->
  let qi := match oq with Some j => j | None => current_question_idx s end in
  get_answer_counts s oq !! i =
    Some (if decide (qi < 0) then 0
          else Z.of_nat (count_eq (Z.of_nat i)
                           (map_to_list (from_option id ∅ (answer_log s !! qi))))).
Proof.
  intros Hi qi. unfold get_answer_counts. fold qi. case_decide.
  - do 4 (destruct i as [| i]; [done |]). lia.
  - rewrite foldl_count_lookup.
    do 4 (destruct i as [| i]; [simpl; f_equal; lia |]). lia.
Qed.

(** Slot [i] of [get_answer_counts(question_idx)] is the number of answers
    equal to [i] in that question's bucket of [answer_log], and 0 for an
    unanswered question or a negative index; the result always has four
    slots. *)
Theorem get_answer_counts_slot (s : QuizSession) (oq : option Z) (i : nat) :
  (i < 4)%nat ->
  let qi := match oq with Some j => j | None => current_question_idx s end in
  length (get_answer_counts s oq) = 4%nat /\
  get_answer_counts s oq !! i =
    Some (if decide (qi < 0) then 0
          else Z.of_nat (count_eq (Z.of_nat i)
                           (map_to_list (from_option id ∅ (answer_log s !! qi))))).
Proof.
  intros Hi qi. split.
  - unfold get_answer_counts. case_decide; [done |].
    generalize (map_to_list (from_option id ∅ (answer_log s !! match oq with
      Some j => j | None => current_question_idx s end))).
    intros l. assert (forall c, length (foldl (fun c kv => count_answer c kv.2) c l) = length c)
      as Hl; [| apply Hl].
    induction l as [| kv l IH]; intros c; simpl; [done |].
    rewrite IH. unfold count_answer. case_decide; [apply length_insert | done].
  - apply get_answer_counts_slot_gen, Hi.
Qed.

Lemma get_answer_counts_slot_witness :
  (2 < 4)%nat /\
  get_answer_counts demo_answered None !! 2%nat = Some 0 /\
  (1 < 4)%nat /\
  get_answer_counts demo_answered None !! 1%nat = Some 1.
Proof.
  split; [lia |]. split.
  - rewrite (proj2 (get_answer_counts_slot demo_answered None 2 ltac:(lia))).
    vm_compute. reflexivity.
  - split; [lia |].
    rewrite (proj2 (get_answer_counts_slot demo_answered None 1 ltac:(lia))).
    vm_compute. reflexivity.
Defined.

(** ** Quick counts stay in sync with the answer log *)

Lemma hist_same_refl (s : QuizSession) : hist_same s s.
Proof. by repeat split. Qed.

Lemma hist_same_trans (s1 s2 s3 : QuizSession) :
  hist_same s1 s2 -> hist_same s2 s3 -> hist_same s1 s3.
Proof. intros (? & ? & ? & ?) (? & ? & ? & ?). repeat split; congruence. Qed.

Lemma hist_same_players (s : QuizSession) ps : hist_same s (set_players s ps).
Proof. by repeat split. Qed.

Lemma hist_same_connections (s : QuizSession) cs : hist_same s (set_connections s cs).
Proof. by repeat split. Qed.

Lemma hist_same_state (s : QuizSession) st : hist_same s (set_state s st).
Proof. by repeat split. Qed.

Lemma hist_same_remove (s : QuizSession) pid : hist_same s (remove_player s pid).
Proof. by repeat split. Qed.

Lemma hist_same_add (s : QuizSession) pid ws : hist_same s (snd (add_player s pid ws)).
Proof. unfold add_player. destruct (existsb _ _); by repeat split. Qed.

Lemma hist_same_broadcast (s : QuizSession) ok : hist_same s (snd (broadcast s ok)).
Proof. unfold broadcast. destruct (send_all _ _); by repeat split. Qed.

Lemma hist_same_kick (s : QuizSession) kid : hist_same s (kick_player s kid).
Proof. unfold kick_player. destruct (bool_decide _); by repeat split. Qed.

Lemma hist_same_close (s : QuizSession) : hist_same s (close_question_scoring s).
Proof. unfold close_question_scoring. destruct (get_current_question s); by repeat split. Qed.

Lemma hist_same_question_end (s : QuizSession) : hist_same s (handle_question_end s).
Proof.
  unfold handle_question_end. destruct (get_current_question s);
    [apply hist_same_close | apply hist_same_refl].
Qed.

Lemma hist_same_inbound (s : QuizSession) pid ty now ts :
  hist_same s (inbound_liveness s pid ty now ts).
Proof.
  unfold inbound_liveness, touch_inbound, handle_pong.
  destruct (players s !! pid); destruct (bool_decide _); simpl;
    try destruct (_ !! pid); by repeat split.
Qed.

Lemma hist_same_ping (s : QuizSession) now ok : hist_same s (ping_sweep s now ok).
Proof.
  unfold ping_sweep.
  generalize (map fst (filter (fun kv => classify now kv.2 = Dead) (map_to_list (players s)))).
  intros dead.
  assert (forall s1, hist_same s s1 ->
    hist_same s (foldl (fun s2 pid => snd (broadcast (remove_player s2 pid) ok)) s1 dead))
    as H; [| apply H, hist_same_players].
  induction dead as [| pid dead IH]; intros s1 H1; simpl; [done |].
  apply IH. eapply hist_same_trans; [apply H1 |].
  eapply hist_same_trans; [apply hist_same_remove | apply hist_same_broadcast].
Qed.

Lemma hist_same_disconnect (s : QuizSession) pid :
  hist_same s (handle_student_disconnect s pid).
Proof. by repeat split. Qed.

Lemma counts_in_sync_hist (s s' : QuizSession) :
  hist_same s s' -> counts_in_sync s -> counts_in_sync s'.
Proof.
  intros (Hc & Hl & Hq & Hi) Hs. unfold counts_in_sync.
  rewrite (get_current_question_ext s s' Hq Hi), Hc.
  replace (get_answer_counts s' None) with (get_answer_counts s None); [done |].
  unfold get_answer_counts. by rewrite Hl, Hi.
Qed.

Lemma get_current_question_idx (s : QuizSession) (q : Question) :
  get_current_question s = Some q -> 0 <= current_question_idx s.
Proof.
  unfold get_current_question. destruct (quiz s); [| done].
  case_decide; [done |]. intros _. lia.
Qed.

Lemma counts_in_sync_load (s : QuizSession) (qz : Quiz) : counts_in_sync (load_quiz s qz).
Proof. intros [q Hq]. apply get_current_question_idx in Hq. simpl in Hq. lia. Qed.

Lemma counts_in_sync_next (s : QuizSession) :
  counts_in_sync s -> counts_in_sync (next_question s).2.
Proof.
  intros Hs. unfold next_question. destruct (quiz s) as [qz |] eqn:Hqz; [| done].
  case_decide as Hend.
  - intros [q Hq]. unfold get_current_question in Hq. simpl in Hq. rewrite Hqz in Hq.
    repeat case_decide; first [discriminate | lia].
  - intros [q Hq] i Hi. pose proof (get_current_question_idx _ _ Hq) as H0.
    simpl in H0. unfold get_answer_counts. simpl.
    rewrite decide_False by lia. rewrite decide_True by lia.
    rewrite lookup_insert_eq. simpl. rewrite map_to_list_empty. simpl.
    do 4 (destruct i as [| i]; [reflexivity |]). lia.
Qed.

Lemma counts_in_sync_start (s : QuizSession) :
  counts_in_sync s -> counts_in_sync (handle_quiz_start s).
Proof.
  intros Hs. unfold handle_quiz_start, start_quiz.
  destruct (quiz s) as [qz |]; [| done]. destruct (questions qz); [done |].
  apply counts_in_sync_next. eapply counts_in_sync_hist; [apply hist_same_state | done].
Qed.

Lemma counts_in_sync_record (s : QuizSession) (pid : string) (a : Z) (e : option Q) :
  counts_in_sync s -> counts_in_sync (record_answer s pid a e).2.
Proof.
  intros Hs. unfold record_answer.
  destruct (players s !! pid) as [p |] eqn:Hp; [| done].
  destruct (get_current_question s) as [q |] eqn:Hq; [| done].
  pose proof (get_current_question_idx _ _ Hq) as H0.
  pose proof (setdefault_lookup (answer_log s) (current_question_idx s) ∅) as L1.
  pose proof (setdefault_bucket (answer_log s) (current_question_idx s) ∅) as B1.
  destruct (setdefault (answer_log s) _ ∅) as [bucket log1] eqn:E1.
  destruct (setdefault (answer_time_log s) _ ∅) as [tbucket tlog1] eqn:E2.
  simpl in L1, B1.
  assert (forall i : nat, (i < 4)%nat ->
    answer_counts s !! Z.of_nat i = Some (Z.of_nat (count_eq (Z.of_nat i) (map_to_list bucket))))
    as Hold.
  { intros i Hi. rewrite (Hs (ex_intro _ q Hq) i Hi).
    rewrite (get_answer_counts_slot_gen s None i Hi). simpl.
    rewrite decide_False by lia. by rewrite B1. }
  destruct (answered_current p || bool_decide (is_Some (bucket !! pid))) eqn:Hr.
  - intros _ i Hi. simpl.
    rewrite (get_answer_counts_slot_gen _ None i Hi). simpl.
    rewrite decide_False by lia. rewrite L1. simpl. by apply Hold.
  - apply orb_false_iff in Hr as [_ Hr]. apply bool_decide_eq_false_1 in Hr.
    apply eq_None_not_Some in Hr.
    intros _ i Hi. simpl.
    rewrite (get_answer_counts_slot_gen _ None i Hi). simpl.
    rewrite decide_False by lia. rewrite lookup_insert_eq. simpl.
    rewrite count_eq_insert by done.
    specialize (Hold i Hi).
    destruct (answer_counts s !! a) as [c |] eqn:Ha.
    + destruct (decide (a = Z.of_nat i)) as [-> | Hne].
      * rewrite lookup_insert_eq, bool_decide_eq_true_2 by done.
        rewrite Ha in Hold. injection Hold as ->. f_equal. lia.
      * rewrite lookup_insert_ne by done. rewrite bool_decide_eq_false_2 by done.
        done.
    + destruct (decide (a = Z.of_nat i)) as [-> | Hne]; [congruence |].
      rewrite bool_decide_eq_false_2 by done. done.
Qed.

Lemma counts_in_sync_run_handler (s : QuizSession) (m : HandlerMsg) :
  counts_in_sync s -> counts_in_sync (run_handler s m).
Proof.
  intros Hs. destruct m; simpl.
  - eapply counts_in_sync_hist; [apply hist_same_add | done].
  - apply counts_in_sync_load.
  - by apply counts_in_sync_start.
  - by apply counts_in_sync_next.
  - eapply counts_in_sync_hist; [apply hist_same_question_end | done].
  - eapply counts_in_sync_hist; [apply hist_same_kick | done].
  - eapply counts_in_sync_hist; [apply hist_same_state | done].
  - by apply counts_in_sync_record.
  - eapply counts_in_sync_hist; [apply hist_same_broadcast | done].
  - eapply counts_in_sync_hist; [apply hist_same_inbound | done].
  - eapply counts_in_sync_hist; [apply hist_same_ping | done].
  - eapply counts_in_sync_hist; [apply hist_same_disconnect | done].
Qed.

(** In every session reachable through the server's handlers, while a
    question is open the quick counts [answer_counts[i]] (i = 0..3) equal
    the histogram [get_answer_counts()] recomputed from [answer_log]. *)
Theorem answer_counts_in_sync (id host : string) (pw : option string) (ms : list HandlerMsg) :
  counts_in_sync (run_handlers (new_session id host pw) ms).
Proof.
  assert (forall s, counts_in_sync s -> counts_in_sync (run_handlers s ms)) as H.
  { induction ms as [| m ms IH]; intros s Hs; simpl; [done |].
    apply IH, counts_in_sync_run_handler, Hs. }
  apply H. intros [q Hq]. discriminate.
Qed.

(** ** Advancing questions *)

(** [next_question] returning a question opens it: it becomes the current
    question at the next index, the quick counts and the histogram are all
    zero, no player is marked as having answered, the roster and the state
    are unchanged. *)
Theorem next_question_opens (s : QuizSession) (q : Question) :
  -1 <= current_question_idx s ->
  (next_question s).1 = Some q ->
  let s' := (next_question s).2 in
  get_current_question s' = Some q /\
  current_question_idx s' = current_question_idx s + 1 /\
  answer_counts s' = fresh_counts /\
  get_answer_counts s' None = [0; 0; 0; 0] /\
  map_Forall (fun _ p => answered_current p = false) (players s') /\
  dom (players s') = dom (players s) /\
  state s' = state s.
Proof.
  intros Hlo. unfold next_question.
  destruct (quiz s) as [qz |] eqn:Hqz; [| discriminate].
  case_decide as Hend; [discriminate |]. simpl. intros Hq.
  split; [| split; [done | split; [done | split; [| split; [| split; [| done]]]]]].
  - unfold get_current_question. simpl. rewrite Hqz.
    rewrite decide_False by lia. rewrite decide_False by lia. done.
  - unfold get_answer_counts. simpl. rewrite decide_False by lia.
    rewrite decide_True by lia. rewrite lookup_insert_eq. simpl.
    rewrite map_to_list_empty. done.
  - intros k p. rewrite lookup_fmap. destruct (players s !! k); simpl; [| done].
    intros [= <-]. done.
  - apply dom_fmap_L.
Qed.

Lemma next_question_opens_witness :
  -1 <= current_question_idx (run_handlers (new_session "demo" "h1" None)
                                 [MJoin "h1" 0%nat; MLoad quiz1; MJoin "s1" 1%nat]) /\
  (next_question (run_handlers (new_session "demo" "h1" None)
                    [MJoin "h1" 0%nat; MLoad quiz1; MJoin "s1" 1%nat])).1 = Some q1 /\
  get_current_question (next_question (run_handlers (new_session "demo" "h1" None)
                          [MJoin "h1" 0%nat; MLoad quiz1; MJoin "s1" 1%nat])).2 = Some q1.
Proof.
  assert (H1 : -1 <= current_question_idx (run_handlers (new_session "demo" "h1" None)
                                 [MJoin "h1" 0%nat; MLoad quiz1; MJoin "s1" 1%nat]))
    by (vm_compute; discriminate).
  assert (H2 : (next_question (run_handlers (new_session "demo" "h1" None)
                    [MJoin "h1" 0%nat; MLoad quiz1; MJoin "s1" 1%nat])).1 = Some q1)
    by (vm_compute; reflexivity).
  split; [exact H1 |]. split; [exact H2 |].
  exact (proj1 (next_question_opens _ q1 H1 H2)).
Defined.

(** Advancing past the last question answers [None], moves the session to
    FINISHED, leaves no current question, and from then on every
    [record_answer] is refused without any effect and every further
    [next_question] again answers [None]. *)
Theorem next_question_past_last (s : QuizSession) (qz : Quiz) :
  quiz s = Some qz ->
  Z.of_nat (length (questions qz)) <= current_question_idx s + 1 ->
  let s' := (next_question s).2 in
  (next_question s).1 = None /\ state s' = FINISHED /\
  get_current_question s' = None /\
  (forall pid a e, record_answer s' pid a e = (false, s')) /\
  (next_question s').1 = None.
Proof.
  intros Hqz Hend. unfold next_question at 1 2. rewrite Hqz.
  rewrite decide_True by lia. simpl.
  assert (get_current_question (set_state (set_idx s (current_question_idx s + 1)) FINISHED)
          = None) as Hnone.
  { unfold get_current_question. simpl. rewrite Hqz.
    case_decide; [done |]. by rewrite decide_True by lia. }
  split; [done | split; [done | split; [done | split]]].
  - intros pid a e. by apply record_answer_no_question.
  - unfold next_question. simpl. rewrite Hqz. rewrite decide_True by lia. done.
Qed.

Lemma next_question_past_last_witness :
  quiz demo_answered = Some quiz1 /\
  Z.of_nat (length (questions quiz1)) <= current_question_idx demo_answered + 1 /\
  (record_answer (next_question demo_answered).2 "s1" 1 None).1 = false.
Proof.
  assert (H1 : quiz demo_answered = Some quiz1) by (vm_compute; reflexivity).
  assert (H2 : Z.of_nat (length (questions quiz1)) <= current_question_idx demo_answered + 1)
    by (vm_compute; discriminate).
  split; [exact H1 |]. split; [exact H2 |].
  destruct (next_question_past_last demo_answered quiz1 H1 H2) as (_ & _ & _ & H & _).
  by rewrite H.
Defined.

(** [record_answer] never reads the lifecycle state: the same call gives
    the same verdict and the same effect whether the session is in LOBBY,
    ACTIVE or FINISHED (so answers are still taken after [quiz.stop]). *)
Theorem record_answer_any_state (s : QuizSession) (st : QuizState) (pid : string)
    (a : Z) (e : option Q) :
  record_answer (set_state s st) pid a e =
    ((record_answer s pid a e).1, set_state (record_answer s pid a e).2 st).
Proof.
  unfold record_answer. simpl.
  destruct (players s !! pid) as [p |]; [| done].
  rewrite (get_current_question_ext s (set_state s st)) by done.
  destruct (get_current_question s) as [q |]; [| done].
  simpl.
  destruct (setdefault (answer_log s) _ ∅) as [bucket log1].
  destruct (setdefault (answer_time_log s) _ ∅) as [tbucket tlog1].
  destruct (answered_current p || _); done.
Qed.

(** ** Disconnect and rejoin *)

(** A student who disconnects and joins again under the same id gets a
    fresh record (score 0, no round scores, not answered); an answer already
    logged for the current question still blocks a second one. *)
Theorem rejoin_after_disconnect (s : QuizSession) (pid : string) (ws : WebSocket) :
  keys_consistent s ->
  let s2 := (add_player (handle_student_disconnect s pid) pid ws).2 in
  (add_player (handle_student_disconnect s pid) pid ws).1 = Some (new_player pid) /\
  players s2 !! pid = Some (new_player pid) /\
  (forall a0 a e, from_option id ∅ (answer_log s !! current_question_idx s) !! pid = Some a0 ->
     (record_answer s2 pid a e).1 = false).
Proof.
  intros Hk. rewrite add_player_accepts.
  2:{ intros k p. simpl. destruct (decide (k = pid)) as [-> | Hne].
      - by rewrite lookup_delete_eq.
      - rewrite lookup_delete_ne by congruence. intros Hp.
        rewrite (Hk k p Hp). done. }
  simpl. split; [done | split; [by rewrite lookup_insert_eq |]].
  intros a0 a e Ha0.
  destruct (get_current_question s) as [q |] eqn:Hq.
  - erewrite record_answer_rejected; [done | | |].
    + simpl. apply lookup_insert_eq.
    + rewrite <- Hq. by apply get_current_question_ext.
    + right. simpl. by rewrite Ha0.
  - rewrite record_answer_no_question; [done |].
    rewrite <- Hq. by apply get_current_question_ext.
Qed.

Lemma rejoin_after_disconnect_witness :
  keys_consistent demo_answered /\
  (record_answer (add_player (handle_student_disconnect demo_answered "s1") "s1" 7%nat).2
     "s1" 1 None).1 = false.
Proof.
  assert (Hk : keys_consistent demo_answered).
  { unfold keys_consistent. apply (bool_decide_unpack _). vm_compute. reflexivity. }
  split; [exact Hk |].
  destruct (rejoin_after_disconnect demo_answered "s1" 7%nat Hk) as (_ & _ & H).
  apply (H 1). vm_compute. reflexivity.
Defined.

(** ** One pass of the ping loop *)

Lemma foldl_delete_lookup_players (ps : gmap string Player) (dead : list string) (k : string) :
  foldl (fun m pid => delete pid m) ps dead !! k =
    if decide (k ∈ dead) then None else ps !! k.
Proof.
  revert ps. induction dead as [| d dead IH]; intros ps; cbn [foldl].
  - rewrite decide_False by set_solver. done.
  - rewrite IH. destruct (decide (k ∈ dead)) as [Hin | Hnin].
    + rewrite decide_True by set_solver. done.
    + destruct (decide (k = d)) as [-> | Hne].
      * rewrite decide_True by set_solver. apply lookup_delete_eq.
      * rewrite decide_False by set_solver. by apply lookup_delete_ne.
Qed.

Lemma foldl_alter_lookup (f : Player -> Player) (ps : gmap string Player)
    (l : list string) (k : string) :
  (forall p, f (f p) = f p) ->
  foldl (fun m pid => alter f pid m) ps l !! k =
    if decide (k ∈ l) then f <$> ps !! k else ps !! k.
Proof.
  intros Hf. revert ps. induction l as [| d l IH]; intros ps; cbn [foldl].
  - rewrite decide_False by set_solver. done.
  - rewrite IH. destruct (decide (k = d)) as [-> | Hne].
    + rewrite lookup_alter_eq. rewrite (decide_True (P := d ∈ d :: l)) by set_solver.
      destruct (decide (d ∈ l)); destruct (ps !! d); simpl; rewrite ?Hf; done.
    + rewrite lookup_alter_ne by congruence.
      destruct (decide (k ∈ l)).
      * by rewrite decide_True by set_solver.
      * by rewrite decide_False by set_solver.
Qed.

Lemma ping_removals_players (l : list string) (ok : WebSocket -> bool) (s : QuizSession) :
  players (foldl (fun s2 pid => snd (broadcast (remove_player s2 pid) ok)) s l) =
    foldl (fun m pid => delete pid m) (players s) l.
Proof.
  revert s. induction l as [| pid l IH]; intros s; cbn [foldl]; [done |].
  rewrite IH. f_equal. unfold broadcast. destruct (send_all _ _). done.
Qed.

Lemma in_classified (now : Q) (c : Liveness) (ps : gmap string Player) (k : string) :
  k ∈ map fst (filter (fun kv => classify now kv.2 = c) (map_to_list ps)) <->
  exists p, ps !! k = Some p /\ classify now p = c.
Proof.
  rewrite list_elem_of_fmap. split.
  - intros ([k' p] & -> & Hin). apply list_elem_of_filter in Hin as [Hc Hin].
    apply elem_of_map_to_list in Hin. eauto.
  - intros (p & Hp & Hc). exists (k, p). split; [done |].
    apply list_elem_of_filter. split; [done |]. by apply elem_of_map_to_list.
Qed.

(** One pass of [ping_loop] over a session: a player silent for more than
    [HARD_TIMEOUT] is removed, an "active" player silent for more than
    [PLAYER_TIMEOUT] (but not [HARD_TIMEOUT]) is marked "stale", every other
    player (among them those never heard from) is left exactly as it was,
    and no player is added. *)
Theorem ping_sweep_players (s : QuizSession) (now : Q) (ok : WebSocket -> bool) (k : string) :
  players (ping_sweep s now ok) !! k =
    match players s !! k with
    | None => None
    | Some p =>
        match classify now p with
        | Dead => None
        | Stale => Some (set_status p "stale")
        | Keep => Some p
        end
    end.
Proof.
  unfold ping_sweep. rewrite ping_removals_players. simpl.
  rewrite foldl_delete_lookup_players, foldl_alter_lookup by done.
  destruct (players s !! k) as [p |] eqn:Hk.
  - destruct (classify now p) eqn:Hc.
    + rewrite decide_False.
      2:{ rewrite in_classified. intros (p' & Hp' & Hc'). congruence. }
      rewrite decide_False; [done |].
      rewrite in_classified. intros (p' & Hp' & Hc'). congruence.
    + rewrite decide_False.
      2:{ rewrite in_classified. intros (p' & Hp' & Hc'). congruence. }
      rewrite decide_True; [done |]. rewrite in_classified. eauto.
    + rewrite decide_True; [done |]. rewrite in_classified. eauto.
  - rewrite decide_False.
    2:{ rewrite in_classified. intros (p' & Hp' & Hc'). congruence. }
    case_decide; done.
Qed.



(** ** Loading a quiz *)

(** [load_quiz] keeps every player and connection, zeroes every score and
    answered flag, returns to LOBBY with no current question and an empty
    histogram. *)
Theorem load_quiz_resets (s : QuizSession) (qz : Quiz) :
  let s' := load_quiz s qz in
  dom (players s') = dom (players s) /\
  map_Forall (fun _ p => score p = 0 /\ answered_current p = false) (players s') /\
  connections s' = connections s /\ state s' = LOBBY /\ quiz s' = Some qz /\
  get_current_question s' = None /\ get_answer_counts s' None = [0; 0; 0; 0].
Proof.
  simpl. split; [apply dom_fmap_L |]. split.
  - intros k p. rewrite lookup_fmap. destruct (players s !! k); simpl; [| done].
    intros [= <-]. done.
  - repeat split.
Qed.

(** An accepted answer [a] adds exactly one to slot [a] of the histogram
    of the current question and leaves the other slots alone (an answer
    outside 0..3 is logged but counted nowhere). *)
Theorem accepted_answer_counted (s : QuizSession) (pid : string) (p : Player)
    (q : Question) (a : Z) (e : option Q) :
  players s !! pid = Some p -> get_current_question s = Some q ->
  answered_current p = false ->
  from_option id ∅ (answer_log s !! current_question_idx s) !! pid = None ->
  forall i : nat, (i < 4)%nat ->
    get_answer_counts (record_answer s pid a e).2 None !! i =
      (fun c => if bool_decide (a = Z.of_nat i) then c + 1 else c)
        <$> get_answer_counts s None !! i.
Proof.
  intros Hp Hq Hans Hnot i Hi.
  pose proof (get_current_question_idx _ _ Hq) as H0.
  destruct (record_answer_accepted s pid p q a e Hp Hq Hans Hnot)
    as (s' & -> & Hlog & _ & _ & _ & Hidx & _). simpl.
  rewrite !get_answer_counts_slot_gen by done. simpl.
  rewrite Hidx, !decide_False by lia. rewrite Hlog, lookup_insert_eq. simpl.
  rewrite count_eq_insert by done. f_equal.
  destruct (bool_decide (a = Z.of_nat i)); lia.
Qed.

Lemma accepted_answer_counted_witness :
  players demo_started !! "s1" = Some (new_player "s1") /\
  get_current_question demo_started = Some q1 /\
  answered_current (new_player "s1") = false /\
  from_option id ∅ (answer_log demo_started !! current_question_idx demo_started) !! "s1" = None /\
  get_answer_counts (record_answer demo_started "s1" 2 None).2 None !! 2%nat = Some 1.
Proof.
  assert (H1 : players demo_started !! "s1" = Some (new_player "s1")) by (vm_compute; reflexivity).
  assert (H2 : get_current_question demo_started = Some q1) by (vm_compute; reflexivity).
  assert (H3 : answered_current (new_player "s1") = false) by reflexivity.
  assert (H4 : from_option id ∅ (answer_log demo_started !! current_question_idx demo_started)
                 !! "s1" = None) by (vm_compute; reflexivity).
  do 4 (split; [assumption |]).
  rewrite (accepted_answer_counted demo_started "s1" (new_player "s1") q1 2 None H1 H2 H3 H4 2);
    [| lia].
  vm_compute. reflexivity.
Defined.

(** A player the ping loop would drop at time [now] would also be dropped
    at any later time, and a player never heard from (no [last_seen], no
    [last_pong]) is never marked stale or dropped. *)
Theorem classify_dead_persists (p : Player) (now now' : Q) :
  (classify now p = Dead -> (now <= now')%Q -> classify now' p = Dead) /\
  (last_contact p = None -> classify now p = Keep).
Proof.
  unfold classify. split.
  - destruct (last_contact p) as [last |]; [| discriminate].
    destruct (Qlt_le_dec HARD_TIMEOUT (now - last)) as [H | H].
    + intros _ Hle. destruct (Qlt_le_dec HARD_TIMEOUT (now' - last)) as [H' | H']; [done |].
      exfalso. apply (Qlt_not_le _ _ H). eapply Qle_trans; [| apply H'].
      apply Qplus_le_l. done.
    + destruct (Qlt_le_dec PLAYER_TIMEOUT (now - last)); [destruct (bool_decide _) |];
        discriminate.
  - intros ->. done.
Qed.
